(** * File serving of mcp-z/server: naming, reservation, URIs and retrieval

    A shallow embedding of [src/file-serving/utils.ts] and
    [src/file-serving/router.ts], together with the parts of the JavaScript
    string API, of Node's POSIX [path] module and of the file system that
    those two files call.

    Conventions.
    - A JavaScript string is a [string]; a character stands for one code
      unit below 256.  Indices are numbers ([Z]), [-1] meaning "absent" as
      in [String.prototype.indexOf].
    - A JavaScript number the code is handed (a port) is a [JS.number]:
      [NaN], an infinity or a finite value, whole or not.  Its text in a
      template literal is the parameter [numberText]; it is not computed.
    - [throw] is the [Throw] constructor of [result]; [async] functions are
      run to completion, so a rejected promise is a [Throw] as well.
    - The file system is a finite map from absolute normalised paths to
      nodes. *)

From Stdlib Require Import ZArith Ascii String List Lia DecimalString.
From stdpp Require Import base option gmap strings list fin_maps.

Local Open Scope Z_scope.

(** [simpl] may unfold a concatenation whose left part starts with a
    known character. *)
#[local] Arguments String.append !s1 s2 : simpl nomatch.

(** ** JavaScript strings *)

Module JS.

(** [s.startsWith(p)] *)
Fixpoint startsWith (s p : string) : bool :=
  match p, s with
  | EmptyString, _ => true
  | String _ _, EmptyString => false
  | String b p', String a s' => if Ascii.eqb a b then startsWith s' p' else false
  end.

(** Left-to-right search shared by [indexOf] and [includes]: the first
    position, counted from [pos], at which [d] starts. *)
Fixpoint search (s d : string) (pos : nat) : option nat :=
  if startsWith s d then Some pos
  else match s with
       | EmptyString => None
       | String _ s' => search s' d (S pos)
       end.

(** [s.indexOf(d)] *)
Definition indexOf (s d : string) : Z :=
  match search s d 0 with
  | Some i => Z.of_nat i
  | None => -1
  end.

(** [s.includes(d)] *)
Definition includes (s d : string) : bool :=
  match search s d 0 with
  | Some _ => true
  | None => false
  end.

Fixpoint take (n : nat) (s : string) : string :=
  match n, s with
  | S n', String a s' => String a (take n' s')
  | _, _ => EmptyString
  end.

Fixpoint drop (n : nat) (s : string) : string :=
  match n, s with
  | S n', String _ s' => drop n' s'
  | _, _ => s
  end.

Definition len (s : string) : Z := Z.of_nat (String.length s).

(** Arguments of [substring] and [slice] are clamped to [0 .. length]. *)
Definition clamp (s : string) (i : Z) : nat :=
  Z.to_nat (Z.min (Z.max i 0) (len s)).

(** [s.substring(a, b)]: the two clamped bounds are swapped when out of
    order. *)
Definition substring (s : string) (a b : Z) : string :=
  let lo := Nat.min (clamp s a) (clamp s b) in
  let hi := Nat.max (clamp s a) (clamp s b) in
  take (hi - lo) (drop lo s).

(** [s.substring(a)] *)
Definition substring_from (s : string) (a : Z) : string :=
  drop (clamp s a) s.

(** [s.slice(a)] for a non-negative [a] *)
Definition slice_from (s : string) (a : Z) : string :=
  drop (clamp s a) s.

(** [s.endsWith("/")]-style test on the last code unit. *)
Fixpoint lastIs (c : ascii) (s : string) : bool :=
  match s with
  | EmptyString => false
  | String a EmptyString => Ascii.eqb a c
  | String _ s' => lastIs c s'
  end.

(** JavaScript truthiness of a string: only the empty string is falsy. *)
Definition truthy (s : string) : bool :=
  match s with EmptyString => false | _ => true end.

(** A number: [NaN], an infinity, or the finite value [m * 2^e].  Every
    finite double has this form, fractions included; both zeros have
    [m = 0]. *)
Inductive number : Type :=
| NaN
| Infinity (negative : bool)
| Finite (m e : Z).

(** The number of an integer. *)
Definition integer (z : Z) : number := Finite z 0.

(** Truthiness of a number: [0], [-0] and [NaN] are falsy, every other
    number, the infinities included, is truthy. *)
Definition toBoolean (n : number) : bool :=
  match n with
  | NaN => false
  | Infinity _ => true
  | Finite m _ => negb (m =? 0)
  end.

(** The decimal digits of an integer.  This is the text JavaScript gives
    an integral number below [2^53] in magnitude; it is used for integer
    constants of the code only.  The text of an arbitrary number (rounded
    digits above [2^53], exponent form from [1e21], [NaN], [Infinity]) is
    not computed here: where the code prints a number it was handed, the
    conversion is the parameter [numberText] of the subsystem. *)
Definition numberToString (n : Z) : string :=
  NilZero.string_of_int (Z.to_int n).

(** The one-character string holding a double quote. *)
Definition quote : string := String (ascii_of_N 34) EmptyString.

(** *** [encodeURIComponent] *)

Definition hexDigit (n : N) : ascii :=
  ascii_of_N (if (n <? 10)%N then 48 + n else 55 + n)%N.

Definition percent (n : N) : string :=
  String "%" (String (hexDigit (n / 16)) (String (hexDigit (n mod 16)) EmptyString)).

(** The characters left alone: letters, digits and [- _ . ! ~ * ' ( )]. *)
Definition unreserved (n : N) : bool :=
  ((65 <=? n) && (n <=? 90) || (97 <=? n) && (n <=? 122) || (48 <=? n) && (n <=? 57)
   || (n =? 45) || (n =? 95) || (n =? 46) || (n =? 33) || (n =? 126)
   || (n =? 42) || (n =? 39) || (n =? 40) || (n =? 41))%N.

(** One code unit: kept, or replaced by the escapes of its UTF-8 bytes
    (one byte below 128, two bytes from 128 to 255). *)
Definition encodeUnit (a : ascii) : string :=
  let n := N_of_ascii a in
  if unreserved n then String a EmptyString
  else if (n <? 128)%N then percent n
  else percent (192 + n / 64) +:+ percent (128 + n mod 64).

Fixpoint encodeURIComponent (s : string) : string :=
  match s with
  | EmptyString => EmptyString
  | String a s' => encodeUnit a +:+ encodeURIComponent s'
  end.

End JS.

(** ** Node's POSIX [path] module

    [path.join], [path.normalize] and [path.resolve] of Node.js, which the
    repository imports.  Node scans the path one code unit at a time
    ([normalizeString] in [lib/path.js]); the same result is obtained
    segment by segment: empty and [.] segments are skipped, a [..] removes
    the segment before it, and a [..] with nothing to remove is kept only
    when the path is relative. *)

Module Path.

Definition slash : ascii := "/"%char.

(** [s.split("/")] *)
Fixpoint split (s : string) : list string :=
  match s with
  | EmptyString => [EmptyString]
  | String a s' =>
      if Ascii.eqb a slash then EmptyString :: split s'
      else match split s' with
           | seg :: rest => String a seg :: rest
           | [] => [String a EmptyString]
           end
  end.

(** [segs.join("/")] *)
Fixpoint unsplit (segs : list string) : string :=
  match segs with
  | [] => EmptyString
  | [seg] => seg
  | seg :: rest => seg +:+ "/" +:+ unsplit rest
  end.

(** One step of [normalizeString]; [stack] holds the segments kept so
    far, last one first. *)
Definition step (allowAboveRoot : bool) (stack : list string) (seg : string)
  : list string :=
  if String.eqb seg EmptyString || String.eqb seg "." then stack
  else if String.eqb seg ".." then
    match stack with
    | last :: rest =>
        if String.eqb last ".."
        then (if allowAboveRoot then seg :: stack else stack)
        else rest
    | [] => if allowAboveRoot then [seg] else []
    end
  else seg :: stack.

Definition normalizeSegments (allowAboveRoot : bool) (segs : list string)
  : list string :=
  rev (fold_left (step allowAboveRoot) segs []).

Definition normalizeString (path : string) (allowAboveRoot : bool) : string :=
  unsplit (normalizeSegments allowAboveRoot (split path)).

Definition isAbsolute (path : string) : bool := JS.startsWith path "/".

(** [path.normalize(p)] *)
Definition normalize (path : string) : string :=
  if negb (JS.truthy path) then "."
  else
    let absolute := isAbsolute path in
    let trailingSeparator := JS.lastIs slash path in
    let p := normalizeString path (negb absolute) in
    if negb (JS.truthy p) then
      (if absolute then "/" else if trailingSeparator then "./" else ".")
    else
      let p := if trailingSeparator then p +:+ "/" else p in
      if absolute then "/" +:+ p else p.

(** [path.join(a, b)]: the non-empty arguments are glued with a slash and
    the result is normalised. *)
Definition join (a b : string) : string :=
  match JS.truthy a, JS.truthy b with
  | true, true => normalize (a +:+ "/" +:+ b)
  | true, false => normalize a
  | false, true => normalize b
  | false, false => "."
  end.

(** [path.resolve(p)] with [cwd] the value of [process.cwd()]: arguments
    are taken from the right, then the working directory, until an
    absolute one has been seen. *)
Definition resolve (cwd p : string) : string :=
  let resolvedPath := if JS.truthy p then p +:+ "/" else EmptyString in
  let resolvedAbsolute := JS.truthy p && isAbsolute p in
  let resolvedPath :=
    if resolvedAbsolute then resolvedPath
    else if JS.truthy cwd then cwd +:+ "/" +:+ resolvedPath else resolvedPath in
  let resolvedAbsolute := resolvedAbsolute || (JS.truthy cwd && isAbsolute cwd) in
  let normalized := normalizeString resolvedPath (negb resolvedAbsolute) in
  if resolvedAbsolute then "/" +:+ normalized
  else if JS.truthy normalized then normalized else ".".

(** [path.dirname(p)] for an absolute normalised path without trailing
    slash. *)
Definition dirname (p : string) : string :=
  "/" +:+ unsplit (removelast (normalizeSegments false (split p))).

(** The directories [mkdir -p] walks through: every non-empty prefix of
    the segments of an absolute path, nearest the root first. *)
Fixpoint prefixes (acc segs : list string) : list string :=
  match segs with
  | [] => []
  | seg :: rest =>
      let acc' := acc ++ [seg] in
      ("/" +:+ unsplit acc') :: prefixes acc' rest
  end.

Definition ancestors (p : string) : list string :=
  prefixes [] (normalizeSegments false (split p)).

(** Containment as a path relation: [p] is [dir] or lies below it. *)
Definition within (dir p : string) : Prop :=
  exists rest, normalizeSegments false (split p)
               = normalizeSegments false (split dir) ++ rest.

End Path.

(** ** Exceptions

    The repository throws plain [Error] objects; Node throws [TypeError]
    for a non-string path argument and system errors (with a [code]) from
    the file system. *)

Inductive exn : Type :=
| Error (message : string)
| TypeError (message : string)
| SystemError (code : string).

Inductive result (A : Type) : Type :=
| Ok (a : A)
| Throw (e : exn).
Arguments Ok {A} a.
Arguments Throw {A} e.

Definition bind {A B : Type} (r : result A) (k : A -> result B) : result B :=
  match r with
  | Ok a => k a
  | Throw e => Throw e
  end.

Notation "'let*' x ':=' e 'in' k" := (bind e (fun x => k))
  (at level 10, x name, e at level 100, k at level 200).

(** ** The file system *)

Module Fs.

Inductive node : Type :=
| File (data : list Byte.byte)
| Dir.

(** The key under which a path is stored: its normalised absolute form,
    without trailing slash. *)
Definition key (p : string) : string := "/" +:+ Path.normalizeString p false.

(** What a path names.  The root always exists; a path written with a
    trailing slash names directories only. *)
Definition stat (m : gmap string node) (p : string) : option node :=
  if String.eqb (key p) "/" then Some Dir
  else match m !! key p with
       | Some (File data) => if JS.lastIs Path.slash p then None else Some (File data)
       | other => other
       end.

(** [fs.existsSync(p)] *)
Definition existsSync (m : gmap string node) (p : string) : bool :=
  match stat m p with Some _ => true | None => false end.

(** [fs.readFileSync(p)] *)
Definition readFileSync (m : gmap string node) (p : string) : result (list Byte.byte) :=
  match stat m p with
  | Some (File data) => Ok data
  | Some Dir => Throw (SystemError "EISDIR")
  | None => Throw (SystemError "ENOENT")
  end.

(** Is one of the directories to be created already there as a regular
    file? *)
Definition blocked (m : gmap string node) (d : string) : bool :=
  match m !! d with Some (File _) => true | _ => false end.

Definition mkdirAll (m : gmap string node) (ds : list string) : gmap string node :=
  fold_left (fun acc d => <[d := Dir]> acc) ds m.

(** [mkdir(p, { recursive: true })]: every missing directory on the way
    is created; directories already there are left as they are. *)
Definition mkdir (m : gmap string node) (p : string) : result (gmap string node) :=
  let ds := Path.ancestors p in
  if existsb (blocked m) ds
  then Throw (SystemError (if blocked m (key p) then "EEXIST" else "ENOTDIR"))
  else Ok (mkdirAll m ds).

(** [writeFile(p, buffer)] of [fs/promises]. *)
Definition writeFile (m : gmap string node) (p : string) (buffer : list Byte.byte)
  : result (gmap string node) :=
  if JS.lastIs Path.slash p then Throw (SystemError "EISDIR")
  else match stat m p with
       | Some Dir => Throw (SystemError "EISDIR")
       | _ =>
           match stat m (Path.dirname p) with
           | Some Dir => Ok (<[key p := File buffer]> m)
           | Some (File _) => Throw (SystemError "ENOTDIR")
           | None => Throw (SystemError "ENOENT")
           end
       end.

End Fs.

(** ** Types of the subsystem ([src/types.ts], [file-serving/types.ts]) *)

Inductive TransportType : Type := stdio | http.

Module TransportConfig.
Record t : Type := { type : TransportType; port : option JS.number }.
End TransportConfig.

Module FileUriConfig.
Record t : Type := {
  resourceStoreUri : string;
  baseUrl : option string;
  endpoint : option string }.
End FileUriConfig.

Module FileServingConfig.
(** [G] is the state a generator of identifiers draws on. *)
Record t (G : Type) : Type := {
  resourceStoreUri : string;
  delimiter : option string;
  generateId : option (G -> string * G) }.
Arguments resourceStoreUri {G} _.
Arguments delimiter {G} _.
Arguments generateId {G} _.
End FileServingConfig.

Module FileReservation.
Record t : Type := { id : string; storedName : string; fullPath : string }.
End FileReservation.

Module ParsedName.
Record t : Type := { id : string; filename : string }.
End ParsedName.

Inductive Disposition : Type := inline | attachment.

Definition dispositionToString (d : Disposition) : string :=
  match d with inline => "inline" | attachment => "attachment" end.

Module FileServingRouterOptions.
Record t : Type := {
  contentType : string + (string -> string);
  contentDisposition : option Disposition }.
End FileServingRouterOptions.

(** [req.params.filename] as Express hands it over. *)
Inductive Param : Type :=
| PUndefined
| PString (s : string)
| PArray (items : list string).

Inductive Body : Type :=
| Text (s : string)
| Buffer (data : list Byte.byte).

Module Response.
Record t : Type := {
  status : Z;
  headers : gmap string string;
  body : option Body }.

(** A fresh Express response: status 200, nothing set, nothing sent. *)
Definition fresh : t := {| status := 200; headers := ∅; body := None |}.

Definition withStatus (code : Z) (res : t) : t :=
  {| status := code; headers := headers res; body := body res |}.

Definition setHeader (name value : string) (res : t) : t :=
  {| status := status res; headers := <[name := value]> (headers res); body := body res |}.

Definition send (b : Body) (res : t) : t :=
  {| status := status res; headers := headers res; body := Some b |}.
End Response.

(** ** Stand-ins for the ambient parts, used by the worked examples *)

Module Demo.

(** A generator in the shape of [randomUUID]: hexadecimal digits and
    hyphens, one fresh value per call. *)
Definition uuid (n : nat) : string * nat :=
  ("0000-" +:+ JS.numberToString (Z.of_nat n), S n).

(** A generator that always yields the same value. *)
Definition constant (v : string) (n : nat) : string * nat := (v, S n).

(** [res.contentType] on the media types of the examples: Express sends
    [application/pdf] as it is and adds the character set to the text
    types. *)
Definition mediaType (t : string) : string :=
  if JS.startsWith t "text/" then t +:+ "; charset=utf-8" else t.

(** The text of a number in a template literal, on the numbers of the
    examples: integers below [2^53] in magnitude, written with exponent 0,
    print as their decimal digits. *)
Definition numberText (n : JS.number) : string :=
  match n with
  | JS.Finite m 0 => JS.numberToString m
  | JS.Finite _ _ => "fraction"
  | JS.Infinity false => "Infinity"
  | JS.Infinity true => "-Infinity"
  | JS.NaN => "NaN"
  end.

Definition bytes (s : string) : list Byte.byte := String.list_byte_of_string s.

Definition byExtension (name : string) : string :=
  if JS.includes name ".pdf" then "application/pdf" else "text/plain".

(** A disk with the store [/tmp/files], one stored file in it, and a
    directory next to it whose name begins with the name of the store. *)
Definition disk : gmap string Fs.node :=
  <["/tmp/files-secret/x" := Fs.File (bytes "top secret")]>
    (<["/tmp/files-secret" := Fs.Dir]>
       (<["/tmp/files/0000-1~a b.txt" := Fs.File (bytes "hello")]>
          (<["/tmp/files/sub" := Fs.Dir]>
             (<["/tmp/files" := Fs.Dir]> (<["/tmp" := Fs.Dir]> ∅))))).

End Demo.

(** ** The subsystem *)

Section FileServing.

(** State of the identifier generators, the default generator
    ([crypto.randomUUID]), the working directory ([process.cwd()]),
    Express's [res.contentType], which turns its argument into the value
    of the [Content-Type] header, and the text of a number in a template
    literal. *)
Context {G : Type} (randomUUID : G -> string * G) (cwd : string)
        (expressContentType : string -> string)
        (numberText : JS.number -> string).

(** *** [file-serving/utils.ts] *)

Definition DEFAULT_DELIMITER : string := "~".
Definition FILE_URI_PREFIX : string := "file://".

Definition requiredMessage : string := "File serving requires a resourceStoreUri.".

Definition unsupportedMessage (resourceStoreUri : string) : string :=
  "Unsupported resourceStoreUri scheme: " +:+ resourceStoreUri
  +:+ ". Only file:// URIs are supported.".

Definition resolveResourceStorePath (resourceStoreUri : string) : result string :=
  if negb (JS.truthy resourceStoreUri) then Throw (Error requiredMessage)
  else if JS.startsWith resourceStoreUri FILE_URI_PREFIX then
    let rawPath := JS.slice_from resourceStoreUri (JS.len FILE_URI_PREFIX) in
    Ok (Path.resolve cwd rawPath)
  else if JS.includes resourceStoreUri "://" then
    Throw (Error (unsupportedMessage resourceStoreUri))
  else Ok (Path.resolve cwd resourceStoreUri).

(** The world the asynchronous operations act on; [calls] counts the
    invocations of identifier generators. *)
Record World : Type := {
  fs : gmap string Fs.node;
  gen : G;
  calls : nat }.

(** [generateIdFn()] *)
Definition invoke (generateIdFn : G -> string * G) (w : World) : string * World :=
  let (v, g) := generateIdFn (gen w) in
  (v, {| fs := fs w; gen := g; calls := S (calls w) |}).

Definition maxAttempts : nat := 100.

Definition generationMessage (delimiter : string) : string :=
  "Failed to generate ID without delimiter '" +:+ delimiter +:+ "' after "
  +:+ JS.numberToString (Z.of_nat maxAttempts)
  +:+ " attempts. Consider using a different delimiter or custom ID generator.".

(** The [while (attempts < maxAttempts)] loop, by the number of attempts
    that remain. *)
Fixpoint attempt (remaining : nat) (delimiter : string)
         (generateIdFn : G -> string * G) (w : World) : result string * World :=
  match remaining with
  | O => (Throw (Error (generationMessage delimiter)), w)
  | S remaining' =>
      let (id, w') := invoke generateIdFn w in
      if negb (JS.includes id delimiter) then (Ok id, w')
      else attempt remaining' delimiter generateIdFn w'
  end.

Definition generateValidatedId (delimiter : string)
           (generateIdFn : G -> string * G) (w : World) : result string * World :=
  attempt maxAttempts delimiter generateIdFn w.

Definition formatStoredName (id originalFilename delimiter : string) : string :=
  id +:+ delimiter +:+ originalFilename.

Definition parseStoredName (storedName delimiter : string) : ParsedName.t :=
  let index := JS.indexOf storedName delimiter in
  if index =? -1 then
    {| ParsedName.id := storedName; ParsedName.filename := storedName |}
  else
    {| ParsedName.id := JS.substring storedName 0 index;
       ParsedName.filename := JS.substring_from storedName (index + JS.len delimiter) |}.

Definition reserveFile (originalFilename : string) (config : FileServingConfig.t G)
           (w : World) : result FileReservation.t * World :=
  let delimiter := default DEFAULT_DELIMITER (FileServingConfig.delimiter config) in
  let generateIdFn := default randomUUID (FileServingConfig.generateId config) in
  match resolveResourceStorePath (FileServingConfig.resourceStoreUri config) with
  | Throw e => (Throw e, w)
  | Ok outputDir =>
      match Fs.mkdir (fs w) outputDir with
      | Throw e => (Throw e, w)
      | Ok m =>
          let w := {| fs := m; gen := gen w; calls := calls w |} in
          match generateValidatedId delimiter generateIdFn w with
          | (Throw e, w) => (Throw e, w)
          | (Ok id, w) =>
              let storedName := formatStoredName id originalFilename delimiter in
              let fullPath := Path.join outputDir storedName in
              (Ok {| FileReservation.id := id;
                     FileReservation.storedName := storedName;
                     FileReservation.fullPath := fullPath |}, w)
          end
      end
  end.

Definition writeFile (buffer : list Byte.byte) (originalFilename : string)
           (config : FileServingConfig.t G) (w : World)
  : result FileReservation.t * World :=
  match reserveFile originalFilename config w with
  | (Throw e, w) => (Throw e, w)
  | (Ok reservation, w) =>
      match Fs.writeFile (fs w) (FileReservation.fullPath reservation) buffer with
      | Throw e => (Throw e, w)
      | Ok m => (Ok reservation, {| fs := m; gen := gen w; calls := calls w |})
      end
  end.

Definition uriMessage : string :=
  "getFileUri: HTTP transport requires either baseUrl or port. This is a configuration error.".

(** Truthiness of an optional string and of an optional number. *)
Definition truthyString (o : option string) : bool :=
  match o with Some s => JS.truthy s | None => false end.

Definition truthyNumber (o : option JS.number) : bool :=
  match o with Some n => JS.toBoolean n | None => false end.

(** [`${transport.port}`] *)
Definition portToString (o : option JS.number) : string :=
  match o with Some n => numberText n | None => "undefined" end.

(** [a || b] on strings. *)
Definition orElse (o : option string) (fallback : string) : string :=
  match o with
  | Some s => if JS.truthy s then s else fallback
  | None => fallback
  end.

Definition getFileUri (storedFilename : string) (transport : option TransportConfig.t)
           (config : FileUriConfig.t) : result string :=
  match transport with
  | None | Some {| TransportConfig.type := stdio |} =>
      let* outputDir := resolveResourceStorePath (FileUriConfig.resourceStoreUri config) in
      let fullPath := Path.resolve cwd (Path.join outputDir storedFilename) in
      Ok (FILE_URI_PREFIX +:+ fullPath)
  | Some {| TransportConfig.type := http; TransportConfig.port := port |} =>
      if negb (truthyString (FileUriConfig.baseUrl config)) && negb (truthyNumber port)
      then Throw (Error uriMessage)
      else
        let base := orElse (FileUriConfig.baseUrl config)
                           ("http://localhost:" +:+ portToString port) in
        let endpoint := orElse (FileUriConfig.endpoint config) "/files" in
        Ok (base +:+ endpoint +:+ "/" +:+ storedFilename)
  end.

(** *** [file-serving/router.ts] *)

(** [!rawFilename] *)
Definition missing (rawFilename : Param) : bool :=
  match rawFilename with
  | PUndefined => true
  | PString s => negb (JS.truthy s)
  | PArray _ => false
  end.

(** [Array.isArray(rawFilename) ? rawFilename[0] : rawFilename]; [None]
    is [undefined]. *)
Definition firstOf (rawFilename : Param) : option string :=
  match rawFilename with
  | PUndefined => None
  | PString s => Some s
  | PArray items => head items
  end.

(** [path.join(dir, filename)] where [filename] may be [undefined]. *)
Definition joinChecked (dir : string) (filename : option string) : result string :=
  match filename with
  | Some f => Ok (Path.join dir f)
  | None => Throw (TypeError "The path argument must be of type string.")
  end.

Definition applyContentType (contentType : string + (string -> string))
           (filename : string) : string :=
  match contentType with
  | inl value => expressContentType value
  | inr compute => expressContentType (compute filename)
  end.

Definition dispositionHeader (contentDisposition : Disposition)
           (originalFilename : string) : string :=
  dispositionToString contentDisposition +:+ "; filename=" +:+ JS.quote
  +:+ JS.encodeURIComponent originalFilename +:+ JS.quote.

(** The body of the [try] block of the GET handler.  [Throw] stands for
    an exception raised before anything was set on the response. *)
Definition serve (resolvedStorageDir delimiter : string)
           (contentType : string + (string -> string))
           (contentDisposition : Disposition)
           (m : gmap string Fs.node) (rawFilename : Param) : result Response.t :=
  let res := Response.fresh in
  if missing rawFilename then
    Ok (Response.send (Text "Bad request: filename parameter is required")
          (Response.withStatus 400 res))
  else
    let filename := firstOf rawFilename in
    let* filePath := joinChecked resolvedStorageDir filename in
    if negb (JS.startsWith filePath resolvedStorageDir) then
      Ok (Response.send (Text "Access denied") (Response.withStatus 403 res))
    else if negb (Fs.existsSync m filePath) then
      Ok (Response.send (Text "File not found") (Response.withStatus 404 res))
    else
      let* data := Fs.readFileSync m filePath in
      let filename := default EmptyString filename in
      let originalFilename := ParsedName.filename (parseStoredName filename delimiter) in
      let res := Response.setHeader "Content-Type" (applyContentType contentType filename) res in
      let res := Response.setHeader "Content-Disposition"
                   (dispositionHeader contentDisposition originalFilename) res in
      Ok (Response.send (Buffer data) res).

(** The handler: the [try] block, and the [catch] that answers 500. *)
Definition handle (resolvedStorageDir delimiter : string)
           (contentType : string + (string -> string))
           (contentDisposition : Disposition)
           (m : gmap string Fs.node) (rawFilename : Param) : Response.t :=
  match serve resolvedStorageDir delimiter contentType contentDisposition m rawFilename with
  | Ok res => res
  | Throw _ =>
      Response.send (Text "Internal server error") (Response.withStatus 500 Response.fresh)
  end.

(** [createFileServingRouter(config, options)]: the store is resolved
    once, when the router is built; the result is the handler mounted on
    [GET /:filename]. *)
Definition createFileServingRouter (config : FileServingConfig.t G)
           (options : FileServingRouterOptions.t)
  : result (gmap string Fs.node -> Param -> Response.t) :=
  let delimiter := default DEFAULT_DELIMITER (FileServingConfig.delimiter config) in
  let contentDisposition :=
    default attachment (FileServingRouterOptions.contentDisposition options) in
  let* resolvedStorageDir :=
    resolveResourceStorePath (FileServingConfig.resourceStoreUri config) in
  Ok (handle resolvedStorageDir delimiter
        (FileServingRouterOptions.contentType options) contentDisposition).

End FileServing.

Arguments World : clear implicits.

(** ** Middleware composition ([middleware/composer.ts])

    [T], [R] and [P] are the types of tool, resource and prompt modules.
    A wrapper of a layer is handed to [Array.prototype.map], which calls it
    with the module, the index of the module and the array being mapped. *)

Module Composer.

Definition Wrapper (A : Type) : Type := A -> nat -> list A -> A.

Record MiddlewareLayer (T R P : Type) : Type := {
  withTool : option (Wrapper T);
  withResource : option (Wrapper R);
  withPrompt : option (Wrapper P) }.
Arguments withTool {T R P} _.
Arguments withResource {T R P} _.
Arguments withPrompt {T R P} _.

Record ModuleCollections (T R P : Type) : Type := {
  tools : list T;
  resources : list R;
  prompts : list P }.
Arguments tools {T R P} _.
Arguments resources {T R P} _.
Arguments prompts {T R P} _.

(** [xs.map(f)]: the callback receives the element, its index and [xs]. *)
Definition arrayMap {A : Type} (f : Wrapper A) (xs : list A) : list A :=
  imap (fun index x => f x index xs) xs.

(** [wrapper ? xs.map(wrapper) : xs] *)
Definition mapWith {A : Type} (wrapper : option (Wrapper A)) (xs : list A) : list A :=
  match wrapper with
  | Some f => arrayMap f xs
  | None => xs
  end.

(** The callback of [layers.reduce]. *)
Definition applyLayer {T R P : Type} (acc : ModuleCollections T R P)
           (layer : MiddlewareLayer T R P) : ModuleCollections T R P :=
  {| tools := mapWith (withTool layer) (tools acc);
     resources := mapWith (withResource layer) (resources acc);
     prompts := mapWith (withPrompt layer) (prompts acc) |}.

Definition composeMiddleware {T R P : Type} (modules : ModuleCollections T R P)
           (layers : list (MiddlewareLayer T R P)) : ModuleCollections T R P :=
  fold_left applyLayer layers modules.

End Composer.

(** ** Registration of modules ([register-modules.ts])

    The MCP server belongs to the SDK: it is a state [S] with three
    registration methods, each of which may throw and leaves a state
    behind. *)

Module Register.

Record ToolModule (C H : Type) : Type := {
  toolName : string;
  toolConfig : C;
  toolHandler : H }.
Arguments toolName {C H} _.
Arguments toolConfig {C H} _.
Arguments toolHandler {C H} _.

Record ResourceModule (Tm C H : Type) : Type := {
  name : string;
  template : option Tm;
  config : option C;
  handler : H }.
Arguments name {Tm C H} _.
Arguments template {Tm C H} _.
Arguments config {Tm C H} _.
Arguments handler {Tm C H} _.

Definition templateMessage (resourceName : string) : string :=
  "Resource " +:+ JS.quote +:+ resourceName +:+ JS.quote +:+ " must have a template".

Section Server.

Context {S ToolC ToolH Tm ResC ResH : Type}.
Context (registerTool : string -> ToolC -> ToolH -> S -> result unit * S).
Context (registerResource : string -> Tm -> ResC -> ResH -> S -> result unit * S).
(** The empty object of [resource.config ?? {}]. *)
Context (emptyConfig : ResC).

Fixpoint registerTools (server : S) (tools : list (ToolModule ToolC ToolH))
  : result unit * S :=
  match tools with
  | [] => (Ok tt, server)
  | tool :: rest =>
      match registerTool (toolName tool) (toolConfig tool) (toolHandler tool) server with
      | (Ok _, server) => registerTools server rest
      | (Throw e, server) => (Throw e, server)
      end
  end.

Fixpoint registerResources (server : S) (resources : list (ResourceModule Tm ResC ResH))
  : result unit * S :=
  match resources with
  | [] => (Ok tt, server)
  | resource :: rest =>
      match template resource with
      | None => (Throw (Error (templateMessage (name resource))), server)
      | Some tm =>
          match registerResource (name resource) tm
                  (default emptyConfig (config resource)) (handler resource) server with
          | (Ok _, server) => registerResources server rest
          | (Throw e, server) => (Throw e, server)
          end
      end
  end.

End Server.

End Register.

(** ** Field selection and columnar output ([builders/schemas.ts]) *)

Module Schemas.

(** White space and line terminators among the code units below 256, as
    [String.prototype.trim] removes them. *)
Definition isWhiteSpace (a : ascii) : bool :=
  let n := N_of_ascii a in
  ((9 <=? n) && (n <=? 13) || (n =? 32) || (n =? 160))%N.

Fixpoint trimStart (s : string) : string :=
  match s with
  | EmptyString => EmptyString
  | String a s' => if isWhiteSpace a then trimStart s' else s
  end.

Fixpoint trimEnd (s : string) : string :=
  match s with
  | EmptyString => EmptyString
  | String a s' =>
      let t := trimEnd s' in
      if isWhiteSpace a && negb (JS.truthy t) then EmptyString else String a t
  end.

(** [s.trim()] *)
Definition trim (s : string) : string := trimEnd (trimStart s).

(** [s.split(",")] *)
Fixpoint splitComma (s : string) : list string :=
  match s with
  | EmptyString => [EmptyString]
  | String a s' =>
      if Ascii.eqb a "," then EmptyString :: splitComma s'
      else match splitComma s' with
           | part :: rest => String a part :: rest
           | [] => [String a EmptyString]
           end
  end.

(** [xs.includes(x)] on an array of strings; also [set.has(x)]. *)
Definition includes (xs : list string) (x : string) : bool :=
  existsb (String.eqb x) xs.

(** A [Set<string>]: its elements in insertion order, each once. *)
Definition add (x : string) (set : list string) : list string :=
  if includes set x then set else set ++ [x].

(** [new Set(xs)] *)
Definition newSet (xs : list string) : list string :=
  fold_left (fun set x => add x set) xs [].

(** [Set<string> | 'all'] *)
Inductive Fields : Type :=
| All
| Only (set : list string).

Definition parseFields (fieldsStr : option string) (availableFields : list string)
  : Fields :=
  match fieldsStr with
  | None => All
  | Some fieldsStr =>
      if negb (JS.truthy fieldsStr) then All
      else
        let requested := filter JS.truthy (map trim (splitComma fieldsStr)) in
        let valid := newSet (filter (includes availableFields) requested) in
        let valid := if includes availableFields "id" then add "id" valid else valid in
        if (0 <? length valid)%nat then Only valid else All
  end.

(** What reading a property gives: [undefined], [null] or a value. *)
Inductive Cell (V : Type) : Type :=
| Undefined
| Null
| Data (v : V).
Arguments Undefined {V}.
Arguments Null {V}.
Arguments Data {V} v.

(** [x ?? null] *)
Definition orNull {V : Type} (x : Cell V) : Cell V :=
  match x with
  | Undefined => Null
  | other => other
  end.

Record Columnar (V : Type) : Type := {
  columns : list string;
  rows : list (list (Cell V)) }.
Arguments columns {V} _.
Arguments rows {V} _.

(** An item is known by what reading each of its properties gives
    ([item[col]]). *)
Definition toColumnarFormat {V : Type} (items : list (string -> Cell V))
           (fields : Fields) (availableFields : list string) : Columnar V :=
  let columns :=
    match fields with
    | All => availableFields
    | Only set => filter (includes set) availableFields
    end in
  let rows := map (fun item => map (fun col => orNull (item col)) columns) items in
  {| columns := columns; rows := rows |}.

End Schemas.

(** ** Transport selection ([transports/parse-config.ts])

    [util.parseArgs] belongs to Node: the model starts from the [values] it
    returns.  With [strict: false] an option may come back as a string or
    as a boolean, whatever its declared type. *)

Module ParseConfig.

Inductive ArgValue : Type :=
| ABool (b : bool)
| AString (s : string).

Record Values : Type := {
  stdioValue : option ArgValue;
  portValue : option ArgValue }.

Record ParsedTransportConfig : Type := {
  transport : TransportConfig.t;
  port : option JS.number }.

(** [!port] *)
Definition falsy (port : option JS.number) : bool :=
  match port with
  | Some n => negb (JS.toBoolean n)
  | None => true
  end.

Section WithNumber.

(** [Number(s)] on strings. *)
Context (Number : string -> JS.number).

(** [parseConfig(args, env)], from the values of [parseArgs] and
    [env.PORT]. *)
Definition parseConfig (values : Values) (envPORT : option string)
  : ParsedTransportConfig :=
  let cliPort :=
    match portValue values with
    | Some (AString s) => Some (Number s)
    | _ => None
    end in
  let envPort :=
    match envPORT with
    | Some s => if JS.truthy s then Some (Number s) else None
    | None => None
    end in
  let port := match cliPort with Some n => Some n | None => envPort end in
  let useStdio :=
    match stdioValue values with
    | Some (ABool b) => Some b
    | _ => None
    end in
  let transport :=
    if default false useStdio || falsy port
    then {| TransportConfig.type := stdio; TransportConfig.port := None |}
    else {| TransportConfig.type := http; TransportConfig.port := port |} in
  {| transport := transport; port := port |}.

End WithNumber.

End ParseConfig.

(** ** Further stand-ins for the worked examples *)

Module Samples.

(** A generator whose first two values contain a tilde. *)
Definition flaky (n : nat) : string * nat :=
  (if (n <? 2)%nat then "bad~" +:+ JS.numberToString (Z.of_nat n)
   else "good" +:+ JS.numberToString (Z.of_nat n), S n).

(** A server that keeps the names it has registered and refuses a name
    it already has. *)
Definition registerTool (name : string) (_ _ : unit) (server : list string)
  : result unit * list string :=
  if Schemas.includes server name
  then (Throw (Error ("Tool " +:+ name +:+ " is already registered")), server)
  else (Ok tt, server ++ [name]).

Definition registerResource (name : string) (_ _ _ : unit) (server : list string)
  : result unit * list string :=
  (Ok tt, server ++ [name]).

Definition tool (name : string) : Register.ToolModule unit unit :=
  {| Register.toolName := name; Register.toolConfig := tt; Register.toolHandler := tt |}.

Definition resource (name : string) (template : option unit)
  : Register.ResourceModule unit unit unit :=
  {| Register.name := name; Register.template := template;
     Register.config := None; Register.handler := tt |}.

(** [Number] on the strings of the examples. *)
Definition number (s : string) : JS.number :=
  if String.eqb s "3000" then JS.integer 3000
  else if String.eqb s "0" then JS.integer 0
  else if String.eqb s "Infinity" then JS.Infinity false
  else JS.NaN.

(** Two items read by property name. *)
Definition alice (col : string) : Schemas.Cell string :=
  if String.eqb col "id" then Schemas.Data "1"
  else if String.eqb col "name" then Schemas.Data "Alice"
  else Schemas.Undefined.

Definition storeConfig : FileServingConfig.t nat :=
  {| FileServingConfig.resourceStoreUri := "file:///tmp/files";
     FileServingConfig.delimiter := None;
     FileServingConfig.generateId := None |}.

Definition emptyWorld (seed : nat) : World nat :=
  {| fs := ∅; gen := seed; calls := 0 |}.

End Samples.

(** ** Notions used in the statements *)

(** [d] occurs in [s]: [s] is some text, then [d], then some text. *)
Definition occurs (d s : string) : Prop :=
  exists pre post, s = pre +:+ d +:+ post.

(** A non-empty end of [i] is also a beginning of [d]: glued together,
    [i] and [d] then show [d] before the place where [i] stops. *)
Definition overlaps (i d : string) : Prop :=
  exists pre mid post, mid <> EmptyString /\ i = pre +:+ mid /\ d = mid +:+ post.

(** A decision procedure for [overlaps]: some non-empty end of [i] begins
    [d]. *)
Fixpoint overlapsb (i d : string) : bool :=
  match i with
  | EmptyString => false
  | String _ i' => JS.startsWith d i || overlapsb i' d
  end.

(** The thrown value belongs to the configuration errors of the subsystem. *)
Definition isConfigurationError (e : exn) : Prop :=
  e = Error requiredMessage
  \/ (exists uri, e = Error (unsupportedMessage uri))
  \/ e = Error uriMessage.

(** The thrown value is the generation error for [delimiter]. *)
Definition isGenerationError (delimiter : string) (e : exn) : Prop :=
  e = Error (generationMessage delimiter).

(** The generator state after [n] calls. *)
Definition advance {G : Type} (generateIdFn : G -> string * G) (n : nat) (g : G) : G :=
  Nat.iter n (fun g => snd (generateIdFn g)) g.

(** A filename of one ordinary path segment: not empty, not [.] or [..],
    and without a slash. *)
Definition plain (name : string) : bool :=
  negb (String.eqb name EmptyString) && negb (String.eqb name ".")
  && negb (String.eqb name "..") && negb (JS.includes name "/").

(** The segments a path stands for once normalised from the root. *)
Definition segments (p : string) : list string :=
  Path.normalizeSegments false (Path.split p).

(** A path in the form [path.resolve] returns: a slash, then its own
    segments joined by slashes. *)
Definition normalPath (p : string) : Prop :=
  p = "/" +:+ Path.unsplit (segments p).

(** The [j]-th value a generator yields, counting from 0, when started in
    state [g]. *)
Definition nthValue {G : Type} (generateIdFn : G -> string * G) (g : G) (j : nat) : string :=
  fst (generateIdFn (advance generateIdFn j g)).

(** The four answers of the retrieval endpoint that are not a file. *)
Definition errorResponse (code : Z) (text : string) : Response.t :=
  Response.send (Text text) (Response.withStatus code Response.fresh).

(** A wrapper that looks at the module only: the index and the array it
    is called with make no difference to what it returns.  A function of
    one parameter, as the type [MiddlewareLayer] declares it, is of this
    kind. *)
Definition positionBlind {A : Type} (wrapper : option (Composer.Wrapper A)) : Prop :=
  match wrapper with
  | Some f => forall x index xs index' xs', f x index xs = f x index' xs'
  | None => True
  end.

Definition positionBlindLayer {T R P : Type} (layer : Composer.MiddlewareLayer T R P) : Prop :=
  positionBlind (Composer.withTool layer)
  /\ positionBlind (Composer.withResource layer)
  /\ positionBlind (Composer.withPrompt layer).

(** One module passed through the wrappers that the layers define for its
    kind, first layer first, each called on the module alone (index 0,
    empty array). *)
Definition through {A L : Type} (pick : L -> option (Composer.Wrapper A))
           (layers : list L) (x : A) : A :=
  fold_left (fun acc layer => match pick layer with Some f => f acc 0%nat [] | None => acc end)
            layers x.

(** The parts a field request is made of: the pieces between commas,
    trimmed, the empty ones dropped. *)
Definition requestedFields (fieldsStr : string) : list string :=
  filter JS.truthy (map Schemas.trim (Schemas.splitComma fieldsStr)).

(** The characters [encodeURIComponent] lets through or produces: the
    unreserved ones and the percent sign. *)
Definition inertChar (c : ascii) : bool :=
  JS.unreserved (N_of_ascii c) || Ascii.eqb c "%".

(** * Facts about strings *)

Section Strings.

Implicit Types s p d i f : string.

Lemma append_empty_r s : s +:+ EmptyString = s.
Proof. induction s as [|a s IH]; simpl; [reflexivity | now rewrite IH]. Qed.

Lemma append_assoc s p d : (s +:+ p) +:+ d = s +:+ (p +:+ d).
Proof. induction s as [|a s IH]; simpl; [reflexivity | now rewrite IH]. Qed.

Lemma length_append s p :
  String.length (s +:+ p) = (String.length s + String.length p)%nat.
Proof. induction s as [|a s IH]; simpl; [reflexivity | now rewrite IH]. Qed.

Lemma startsWith_spec s p :
  JS.startsWith s p = true <-> exists post, s = p +:+ post.
Proof.
  revert s; induction p as [|b p IH]; intros s; simpl.
  - split; [intros _; now exists s | intros _; now destruct s].
  - destruct s as [|a s]; simpl.
    + split; [discriminate | intros [post H]; discriminate].
    + destruct (Ascii.eqb a b) eqn:E.
      * apply Ascii.eqb_eq in E as ->. rewrite IH.
        split; intros [post H]; exists post; [now rewrite H | now injection H].
      * apply Ascii.eqb_neq in E.
        split; [discriminate | intros [post H]; injection H; congruence].
Qed.

Lemma startsWith_append p s : JS.startsWith (p +:+ s) p = true.
Proof. apply startsWith_spec; now exists s. Qed.

Lemma search_eq s d n :
  JS.search s d n =
  if JS.startsWith s d then Some n
  else match s with
       | EmptyString => None
       | String _ s' => JS.search s' d (S n)
       end.
Proof. destruct s; reflexivity. Qed.

Lemma search_found s d n k :
  JS.search s d n = Some k ->
  exists pre post, s = pre +:+ d +:+ post /\ k = (n + String.length pre)%nat.
Proof.
  revert n; induction s as [|a s IH]; intros n; rewrite search_eq;
    destruct (JS.startsWith _ d) eqn:E; try discriminate.
  - intros [= <-]. apply startsWith_spec in E as [post E].
    exists EmptyString, post; simpl; split; [assumption | lia].
  - intros [= <-]. apply startsWith_spec in E as [post E].
    exists EmptyString, post; simpl; split; [assumption | lia].
  - intros H. apply IH in H as (pre & post & -> & ->).
    exists (String a pre), post; simpl; split; [reflexivity | lia].
Qed.

Lemma search_absent s d n : JS.search s d n = None -> ~ occurs d s.
Proof.
  revert n; induction s as [|a s IH]; intros n; rewrite search_eq;
    destruct (JS.startsWith _ d) eqn:E; try discriminate.
  - intros _ (pre & post & H). destruct pre; [|discriminate].
    simpl in H. rewrite H, startsWith_append in E; discriminate.
  - intros H (pre & post & Hs). destruct pre as [|b pre]; simpl in Hs.
    + rewrite Hs, startsWith_append in E; discriminate.
    + injection Hs as _ Hs. apply (IH _ H). now exists pre, post.
Qed.

Lemma search_none_iff s d : JS.search s d 0 = None <-> ~ occurs d s.
Proof.
  split; [apply search_absent|].
  intros H. destruct (JS.search s d 0) as [k|] eqn:E; [|reflexivity].
  apply search_found in E as (pre & post & -> & _).
  exfalso; apply H; now exists pre, post.
Qed.

Lemma includes_spec s d : JS.includes s d = true <-> occurs d s.
Proof.
  unfold JS.includes. destruct (JS.search s d 0) as [k|] eqn:E.
  - apply search_found in E as (pre & post & -> & _).
    split; [intros _; now exists pre, post | reflexivity].
  - split; [discriminate | intros H; now apply search_absent in E].
Qed.

Lemma includes_false_iff s d : JS.includes s d = false <-> ~ occurs d s.
Proof.
  rewrite <- includes_spec. destruct (JS.includes s d); split; congruence.
Qed.

Lemma includes_empty s : JS.includes s EmptyString = true.
Proof. apply includes_spec. now exists EmptyString, s. Qed.

Lemma indexOf_absent s d : ~ occurs d s -> JS.indexOf s d = -1.
Proof.
  intros H. unfold JS.indexOf. now rewrite (proj2 (search_none_iff s d) H).
Qed.

Lemma take_append s p : JS.take (String.length s) (s +:+ p) = s.
Proof. induction s as [|a s IH]; simpl; [now destruct p | now rewrite IH]. Qed.

Lemma drop_append s p : JS.drop (String.length s) (s +:+ p) = p.
Proof. induction s as [|a s IH]; simpl; [reflexivity | assumption]. Qed.

End Strings.

(** * The name codec *)

Section Codec.

Implicit Types i f d s : string.

(** Two ways of cutting the same text: one first part continues the
    other. *)
Lemma append_eq_cases s1 s2 p1 p2 :
  s1 +:+ s2 = p1 +:+ p2 ->
  (exists t, p1 = s1 +:+ t) \/ (exists t, s1 = p1 +:+ t).
Proof.
  revert p1; induction s1 as [|a s1 IH]; intros p1 H.
  - left; now exists p1.
  - destruct p1 as [|b p1].
    + right; now exists (String a s1).
    + simpl in H. injection H as -> H.
      destruct (IH _ H) as [[t ->]|[t ->]]; [left | right]; now exists t.
Qed.

Lemma occurs_tail d a s : occurs d s -> occurs d (String a s).
Proof. intros (pre & post & ->). now exists (String a pre), post. Qed.

Lemma overlaps_tail a i d : overlaps i d -> overlaps (String a i) d.
Proof.
  intros (pre & mid & post & Hne & -> & ->).
  now exists (String a pre), mid, post.
Qed.

(** With no occurrence inside [i] and none straddling its end, the first
    occurrence of [d] in [i + d + f] is the one that was written. *)
Lemma search_glued i d f n :
  ~ occurs d i -> ~ overlaps i d ->
  JS.search (i +:+ d +:+ f) d n = Some (n + String.length i)%nat.
Proof.
  revert n; induction i as [|a i IH]; intros n Hocc Hov; rewrite search_eq.
  - simpl. rewrite startsWith_append. f_equal; lia.
  - destruct (JS.startsWith _ d) eqn:E.
    + exfalso. apply startsWith_spec in E as [post E].
      destruct (append_eq_cases _ _ _ _ E) as [[t Ht]|[t Ht]].
      * apply Hov. exists EmptyString, (String a i), t.
        repeat split; [discriminate | assumption].
      * apply Hocc. exists EmptyString, t. simpl. assumption.
    + simpl. rewrite IH.
      * f_equal; lia.
      * intros H; apply Hocc; now apply occurs_tail.
      * intros H; apply Hov; now apply overlaps_tail.
Qed.

Lemma clamp_inside s n :
  (n <= String.length s)%nat -> JS.clamp s (Z.of_nat n) = n.
Proof. intros H. unfold JS.clamp, JS.len. lia. Qed.

(** A delimiter of one character cannot straddle the end of an
    identifier that does not contain it. *)
Lemma single_character_no_overlap i c :
  ~ occurs (String c EmptyString) i -> ~ overlaps i (String c EmptyString).
Proof.
  intros Hocc (pre & mid & post & Hne & -> & Hd).
  destruct mid as [|b mid]; [congruence|].
  simpl in Hd. injection Hd as <- Hd.
  destruct mid; [|discriminate].
  apply Hocc. exists pre, EmptyString. reflexivity.
Qed.

Lemma overlapsb_complete i d : overlaps i d -> overlapsb i d = true.
Proof.
  intros (pre & mid & post & Hne & -> & ->).
  induction pre as [|a pre IH]; simpl.
  - destruct mid as [|b mid]; [congruence|]. cbn [overlapsb].
    now rewrite startsWith_append.
  - rewrite IH. apply orb_true_r.
Qed.

Lemma overlapsb_false i d : overlapsb i d = false -> ~ overlaps i d.
Proof. intros H Ho. apply overlapsb_complete in Ho. congruence. Qed.

(** Once the search stops where [i] ends, the two substrings are [i]
    and [f]. *)
Lemma parse_at_boundary i f d :
  JS.search (i +:+ d +:+ f) d 0 = Some (String.length i) ->
  parseStoredName (formatStoredName i f d) d
  = {| ParsedName.id := i; ParsedName.filename := f |}.
Proof.
  intros Hs. unfold parseStoredName, formatStoredName, JS.indexOf. rewrite Hs.
  assert (Hlen : String.length (i +:+ d +:+ f)
                 = (String.length i + (String.length d + String.length f))%nat)
    by now rewrite !length_append.
  destruct (Z.eqb_spec (Z.of_nat (String.length i)) (-1)) as [Hneg|_]; [lia|].
  f_equal.
  - unfold JS.substring.
    rewrite (clamp_inside _ 0) by lia.
    rewrite clamp_inside by lia.
    rewrite Nat.min_l, Nat.max_r, Nat.sub_0_r by lia.
    apply take_append.
  - unfold JS.substring_from, JS.len.
    rewrite <- Nat2Z.inj_add, clamp_inside by lia.
    rewrite <- length_append, <- append_assoc. apply drop_append.
Qed.

(** A condition under which the round trip holds: the identifier [i] does
    not contain the delimiter [d] and none of its non-empty endings is a
    beginning of [d].  Then, for every original filename [f] (which may
    contain [d]), parsing the formatted name gives back [i] and [f]. *)
Lemma parse_format_roundtrip i f d :
  ~ occurs d i -> ~ overlaps i d ->
  parseStoredName (formatStoredName i f d) d
  = {| ParsedName.id := i; ParsedName.filename := f |}.
Proof.
  intros Hocc Hov. apply parse_at_boundary.
  exact (search_glued i d f 0 Hocc Hov).
Qed.

(** The round trip for delimiters of a single character, such as the
    default tilde. *)
Corollary parse_format_single_character i f c :
  ~ occurs (String c EmptyString) i ->
  parseStoredName (formatStoredName i f (String c EmptyString)) (String c EmptyString)
  = {| ParsedName.id := i; ParsedName.filename := f |}.
Proof.
  intros H. apply parse_at_boundary.
  exact (search_glued i _ f 0 H (single_character_no_overlap i c H)).
Qed.

(** C8.  When the delimiter occurs nowhere in the stored name,
    [parseStoredName] returns a value (it raises nothing) whose identifier
    and filename are both the whole stored name. *)
Theorem parseStoredName_fallback storedName delimiter :
  ~ occurs delimiter storedName ->
  parseStoredName storedName delimiter
  = {| ParsedName.id := storedName; ParsedName.filename := storedName |}.
Proof.
  intros H. unfold parseStoredName. now rewrite (indexOf_absent _ _ H).
Qed.

End Codec.

(** * Directory creation *)

Section Mkdir.

Implicit Types (m : gmap string Fs.node) (ds : list string) (p q : string).

Lemma lookup_mkdirAll m ds q :
  Fs.mkdirAll m ds !! q = if decide (q ∈ ds) then Some Fs.Dir else m !! q.
Proof.
  unfold Fs.mkdirAll. revert m; induction ds as [|d ds IH]; intros m;
    cbn [fold_left].
  - case_decide as H; [by apply elem_of_nil in H | done].
  - rewrite IH. destruct (decide (q ∈ ds)) as [Hin|Hnin].
    + rewrite decide_True; [done|]. apply elem_of_cons; by right.
    + destruct (decide (q = d)) as [->|Hne].
      * rewrite lookup_insert_eq, decide_True; [done|].
        apply elem_of_cons; by left.
      * rewrite lookup_insert_ne, decide_False; [done| |done].
        intros [?|?]%elem_of_cons; done.
Qed.

Lemma not_blocked m ds d :
  existsb (Fs.blocked m) ds = false -> d ∈ ds -> Fs.blocked m d = false.
Proof.
  intros He Hd. destruct (Fs.blocked m d) eqn:E; [|done].
  assert (existsb (Fs.blocked m) ds = true) as Ht; [|congruence].
  apply existsb_exists. exists d. split; [by apply list_elem_of_In | done].
Qed.

Lemma mkdir_inv m p m' :
  Fs.mkdir m p = Ok m' ->
  existsb (Fs.blocked m) (Path.ancestors p) = false
  /\ m' = Fs.mkdirAll m (Path.ancestors p).
Proof.
  unfold Fs.mkdir. destruct (existsb _ _); [discriminate|].
  intros [= <-]. done.
Qed.

(** Directory creation neither adds nor removes nor changes a regular
    file. *)
Lemma mkdir_files m p m' q data :
  Fs.mkdir m p = Ok m' ->
  m' !! q = Some (Fs.File data) <-> m !! q = Some (Fs.File data).
Proof.
  intros [Hb ->]%mkdir_inv. rewrite lookup_mkdirAll.
  case_decide as Hq; [|done].
  split; [discriminate|]. intros Hf.
  pose proof (not_blocked _ _ _ Hb Hq) as Hn.
  unfold Fs.blocked in Hn. rewrite Hf in Hn. discriminate.
Qed.

(** Everything outside the directories walked through is untouched, and
    these are directories afterwards. *)
Lemma mkdir_frame m p m' q :
  Fs.mkdir m p = Ok m' ->
  (q ∉ Path.ancestors p -> m' !! q = m !! q)
  /\ (q ∈ Path.ancestors p -> m' !! q = Some Fs.Dir).
Proof.
  intros [_ ->]%mkdir_inv. rewrite lookup_mkdirAll.
  split; intros H; case_decide; done.
Qed.

(** Creating the directory again succeeds and changes nothing. *)
Lemma mkdir_idempotent m p m' :
  Fs.mkdir m p = Ok m' -> Fs.mkdir m' p = Ok m'.
Proof.
  intros [Hb ->]%mkdir_inv. unfold Fs.mkdir.
  set (ds := Path.ancestors p) in *.
  assert (existsb (Fs.blocked (Fs.mkdirAll m ds)) ds = false) as ->.
  { destruct (existsb (Fs.blocked (Fs.mkdirAll m ds)) ds) eqn:E; [|reflexivity].
    apply existsb_exists in E as (d & Hd%list_elem_of_In & Hbd).
    unfold Fs.blocked in Hbd. rewrite lookup_mkdirAll in Hbd.
    rewrite decide_True in Hbd by done. discriminate. }
  f_equal. apply map_eq. intros q. rewrite !lookup_mkdirAll.
  case_decide; done.
Qed.

End Mkdir.

(** * Identifier generation and reservation *)

Section Reservation.

Context {G : Type} (randomUUID : G -> string * G) (cwd : string).

Implicit Types (w : World G) (m : gmap string Fs.node).

Lemma advance_succ (generateIdFn : G -> string * G) n g :
  advance generateIdFn (S n) g = advance generateIdFn n (snd (generateIdFn g)).
Proof. unfold advance. induction n as [|n IH]; simpl in *; [reflexivity | now rewrite IH]. Qed.

(** A generator whose every value is rejected uses up all the attempts
    that remain; each one is a call, and the file system is not touched. *)
Lemma attempt_exhausts n delimiter generateIdFn w :
  (forall g, JS.includes (fst (generateIdFn g)) delimiter = true) ->
  attempt n delimiter generateIdFn w
  = (Throw (Error (generationMessage delimiter)),
     {| fs := fs w; gen := advance generateIdFn n (gen w); calls := (calls w + n)%nat |}).
Proof.
  intros Hall. revert w; induction n as [|n IH]; intros w.
  - simpl. destruct w; simpl. now rewrite Nat.add_0_r.
  - cbn [attempt]. unfold invoke.
    specialize (Hall (gen w)). destruct (generateIdFn (gen w)) as [v g] eqn:E.
    simpl in Hall. rewrite Hall. simpl negb. cbv iota.
    rewrite IH. cbn [fs gen calls]. rewrite advance_succ, E. simpl snd.
    now replace (S (calls w) + n)%nat with (calls w + S n)%nat by lia.
Qed.

(** The message of the generation error spells out the delimiter and
    the ceiling. *)
Lemma generationMessage_text delimiter :
  generationMessage delimiter
  = "Failed to generate ID without delimiter '" +:+ delimiter
    +:+ "' after 100 attempts. Consider using a different delimiter or custom ID generator.".
Proof. reflexivity. Qed.

(** C4.  A generator that always returns a value containing the
    delimiter is invoked exactly 100 times by [generateValidatedId], which
    then throws the error naming the delimiter and the ceiling: the call
    returns (it is a total function), and never with an identifier. *)
Theorem generation_ceiling delimiter generateIdFn w :
  (forall g, occurs delimiter (fst (generateIdFn g))) ->
  exists w',
    generateValidatedId delimiter generateIdFn w
    = (Throw (Error ("Failed to generate ID without delimiter '" +:+ delimiter
         +:+ "' after 100 attempts. Consider using a different delimiter or custom ID generator.")),
       w')
    /\ calls w' = (calls w + 100)%nat
    /\ gen w' = advance generateIdFn 100 (gen w)
    /\ fs w' = fs w.
Proof.
  intros Hall. eexists. split.
  - unfold generateValidatedId. rewrite attempt_exhausts.
    + rewrite generationMessage_text. reflexivity.
    + intros g. apply includes_spec, Hall.
  - repeat split.
Qed.

(** A successful generation leaves the file system alone and yields an
    identifier free of the delimiter. *)
Lemma attempt_ok n delimiter generateIdFn w id w' :
  attempt n delimiter generateIdFn w = (Ok id, w') ->
  fs w' = fs w /\ JS.includes id delimiter = false.
Proof.
  revert w; induction n as [|n IH]; intros w; cbn [attempt]; [discriminate|].
  unfold invoke. destruct (generateIdFn (gen w)) as [v g].
  destruct (JS.includes v delimiter) eqn:E; simpl negb; cbv iota.
  - intros H. apply IH in H as [-> ?]. done.
  - intros [= <- <-]. done.
Qed.

Lemma reserveFile_inv originalFilename config w r w' :
  reserveFile randomUUID cwd originalFilename config w = (Ok r, w') ->
  exists outputDir m,
    resolveResourceStorePath cwd (FileServingConfig.resourceStoreUri config) = Ok outputDir
    /\ Fs.mkdir (fs w) outputDir = Ok m
    /\ generateValidatedId
         (default DEFAULT_DELIMITER (FileServingConfig.delimiter config))
         (default randomUUID (FileServingConfig.generateId config))
         {| fs := m; gen := gen w; calls := calls w |}
       = (Ok (FileReservation.id r), w')
    /\ FileReservation.storedName r
       = formatStoredName (FileReservation.id r) originalFilename
           (default DEFAULT_DELIMITER (FileServingConfig.delimiter config))
    /\ FileReservation.fullPath r = Path.join outputDir (FileReservation.storedName r).
Proof.
  unfold reserveFile.
  destruct (resolveResourceStorePath _ _) as [outputDir|e] eqn:Er; [|discriminate].
  destruct (Fs.mkdir _ _) as [m|e] eqn:Em; [|discriminate].
  destruct (generateValidatedId _ _ _) as [[id|e] w1] eqn:Eg; [|discriminate].
  intros [= <- <-]. exists outputDir, m.
  split; [reflexivity|]. split; [exact Em|]. split; [exact Eg|].
  split; reflexivity.
Qed.

Lemma stat_file m p data :
  Fs.stat m p = Some (Fs.File data) <->
  String.eqb (Fs.key p) "/" = false /\ JS.lastIs Path.slash p = false
  /\ m !! Fs.key p = Some (Fs.File data).
Proof.
  unfold Fs.stat. destruct (String.eqb _ _).
  { split; [discriminate | intros [? _]; discriminate]. }
  destruct (m !! Fs.key p) as [[d|]|].
  - destruct (JS.lastIs _ _).
    + split; [discriminate | intros (_ & ? & _); discriminate].
    + split; [intros [= ->]; done | intros (_ & _ & [= ->]); done].
  - split; [discriminate | intros (_ & _ & ?); discriminate].
  - split; [discriminate | intros (_ & _ & ?); discriminate].
Qed.

(** C9.  A successful [reserveFile] returns the identifier, the stored
    name [id + delimiter + originalFilename] and the full path, the store
    directory joined with the stored name.  Its effect on the file system
    is the creation of the store directory and nothing else: repeating the
    creation changes nothing, paths off the way to the store directory
    keep what they had, and the regular files after the call are those
    before it, so none appears at the full path. *)
Theorem reserveFile_reservation originalFilename config w r w' :
  reserveFile randomUUID cwd originalFilename config w = (Ok r, w') ->
  let delimiter := default DEFAULT_DELIMITER (FileServingConfig.delimiter config) in
  exists outputDir,
    resolveResourceStorePath cwd (FileServingConfig.resourceStoreUri config) = Ok outputDir
    /\ ~ occurs delimiter (FileReservation.id r)
    /\ FileReservation.storedName r
       = FileReservation.id r +:+ delimiter +:+ originalFilename
    /\ FileReservation.fullPath r = Path.join outputDir (FileReservation.storedName r)
    /\ Fs.mkdir (fs w) outputDir = Ok (fs w')
    /\ Fs.mkdir (fs w') outputDir = Ok (fs w')
    /\ (forall q, q ∉ Path.ancestors outputDir -> fs w' !! q = fs w !! q)
    /\ (forall q, q ∈ Path.ancestors outputDir -> fs w' !! q = Some Fs.Dir)
    /\ (forall q data, fs w' !! q = Some (Fs.File data) <-> fs w !! q = Some (Fs.File data))
    /\ (forall data, Fs.stat (fs w') (FileReservation.fullPath r) = Some (Fs.File data)
                     <-> Fs.stat (fs w) (FileReservation.fullPath r) = Some (Fs.File data)).
Proof.
  intros H delimiter.
  apply reserveFile_inv in H as (outputDir & m & Hres & Hmk & Hgen & Hname & Hpath).
  apply attempt_ok in Hgen as [Hfs Hid]. cbn [fs] in Hfs. subst m.
  exists outputDir. split_and!; try done.
  - now apply includes_false_iff.
  - eapply mkdir_idempotent, Hmk.
  - intros q. eapply mkdir_frame, Hmk.
  - intros q. eapply mkdir_frame, Hmk.
  - intros q data. eapply mkdir_files, Hmk.
  - intros data. rewrite !stat_file.
    now rewrite (mkdir_files _ _ _ (Fs.key (FileReservation.fullPath r)) data Hmk).
Qed.

(** With the empty delimiter every candidate is rejected: whatever the
    generator, the call ends in the error of the earliest failing step. *)
Lemma reserveFile_empty_delimiter originalFilename config w :
  FileServingConfig.delimiter config = Some EmptyString ->
  reserveFile randomUUID cwd originalFilename config w
  = match resolveResourceStorePath cwd (FileServingConfig.resourceStoreUri config) with
    | Throw e => (Throw e, w)
    | Ok outputDir =>
        match Fs.mkdir (fs w) outputDir with
        | Throw e => (Throw e, w)
        | Ok m =>
            (Throw (Error (generationMessage EmptyString)),
             {| fs := m;
                gen := advance (default randomUUID (FileServingConfig.generateId config))
                         100 (gen w);
                calls := (calls w + 100)%nat |})
        end
    end.
Proof.
  intros Hd. unfold reserveFile. rewrite Hd. cbn [default].
  destruct (resolveResourceStorePath _ _) as [outputDir|e]; [|done].
  destruct (Fs.mkdir _ _) as [m|e]; [|done].
  unfold generateValidatedId.
  rewrite attempt_exhausts by (intros g; apply includes_empty). done.
Qed.

(** C10, as amended.  With the empty string as delimiter, [reserveFile]
    and [writeFile] never succeed, whatever the generator; and whenever
    the store location resolves and its directory can be created, both
    fail with the generation error, after exactly 100 calls of the
    generator and without writing anything. *)
Theorem empty_delimiter_never_reserves originalFilename config w :
  FileServingConfig.delimiter config = Some EmptyString ->
  (forall r w', reserveFile randomUUID cwd originalFilename config w <> (Ok r, w'))
  /\ (forall buffer r w',
        writeFile randomUUID cwd buffer originalFilename config w <> (Ok r, w'))
  /\ (forall outputDir m,
        resolveResourceStorePath cwd (FileServingConfig.resourceStoreUri config)
        = Ok outputDir ->
        Fs.mkdir (fs w) outputDir = Ok m ->
        exists e w',
          isGenerationError EmptyString e
          /\ reserveFile randomUUID cwd originalFilename config w = (Throw e, w')
          /\ (forall buffer,
                writeFile randomUUID cwd buffer originalFilename config w = (Throw e, w'))
          /\ calls w' = (calls w + 100)%nat
          /\ fs w' = m).
Proof.
  intros Hd. pose proof (reserveFile_empty_delimiter originalFilename config w Hd) as Hr.
  repeat split.
  - intros r w'. rewrite Hr.
    destruct (resolveResourceStorePath _ _); [|discriminate].
    destruct (Fs.mkdir _ _); discriminate.
  - intros buffer r w'. unfold writeFile. rewrite Hr.
    destruct (resolveResourceStorePath _ _); [|discriminate].
    destruct (Fs.mkdir _ _); discriminate.
  - intros outputDir m Hres Hmk. rewrite Hres, Hmk in Hr.
    eexists _, _. split; [reflexivity|]. split; [exact Hr|].
    split; [|done]. intros buffer. unfold writeFile. now rewrite Hr.
Qed.

End Reservation.

(** * Store location and URIs *)

Section Locations.

Context (cwd : string) (numberText : JS.number -> string).

Lemma absolute_truthy p : Path.isAbsolute p = true -> JS.truthy p = true.
Proof. destruct p; [discriminate | reflexivity]. Qed.

(** Resolution against an absolute working directory gives an absolute
    path. *)
Lemma resolve_absolute p :
  Path.isAbsolute cwd = true -> Path.isAbsolute (Path.resolve cwd p) = true.
Proof.
  intros Hc. unfold Path.resolve.
  rewrite Hc, (absolute_truthy _ Hc), orb_true_r. cbv zeta.
  destruct (JS.truthy p && Path.isAbsolute p); apply startsWith_append.
Qed.

Lemma slice_prefix rest :
  JS.slice_from (FILE_URI_PREFIX +:+ rest) (JS.len FILE_URI_PREFIX) = rest.
Proof.
  unfold JS.slice_from.
  replace (JS.clamp _ _) with (String.length FILE_URI_PREFIX).
  - apply drop_append.
  - unfold JS.clamp, JS.len. rewrite length_append. lia.
Qed.

(** C6.  The store location is rejected exactly when it is empty or,
    without beginning with [file://], contains [://] (a scheme other than
    the file scheme); what is thrown is then a configuration error.  After
    [file://] the remainder is resolved as a path, a location without
    [://] is resolved as it stands, both against the working directory,
    and whatever is returned is an absolute path. *)
Theorem resolveResourceStorePath_cases resourceStoreUri :
  Path.isAbsolute cwd = true ->
  ((exists e, resolveResourceStorePath cwd resourceStoreUri = Throw e)
   <-> resourceStoreUri = EmptyString
       \/ (~ (exists rest, resourceStoreUri = "file://" +:+ rest)
           /\ occurs "://" resourceStoreUri))
  /\ (forall e, resolveResourceStorePath cwd resourceStoreUri = Throw e ->
                isConfigurationError e)
  /\ (forall rest, resourceStoreUri = "file://" +:+ rest ->
                   resolveResourceStorePath cwd resourceStoreUri
                   = Ok (Path.resolve cwd rest))
  /\ (resourceStoreUri <> EmptyString -> ~ occurs "://" resourceStoreUri ->
      resolveResourceStorePath cwd resourceStoreUri
      = Ok (Path.resolve cwd resourceStoreUri))
  /\ (forall dir, resolveResourceStorePath cwd resourceStoreUri = Ok dir ->
                  Path.isAbsolute dir = true).
Proof.
  intros Hc. unfold resolveResourceStorePath.
  destruct resourceStoreUri as [|a u]; cbn [JS.truthy negb].
  { split_and!.
    - split; [now left | now eexists].
    - intros e [= <-]. now left.
    - intros rest H. discriminate.
    - intros H. now destruct H.
    - intros dir H. discriminate. }
  set (uri := String a u).
  destruct (JS.startsWith uri FILE_URI_PREFIX) eqn:Ep.
  { apply startsWith_spec in Ep as [rest Ep].
    change ("file://" +:+ rest) with (FILE_URI_PREFIX +:+ rest) in *.
    rewrite Ep, slice_prefix. split_and!.
    - split; [intros [e H]; discriminate|].
      intros [H|[H _]]; [discriminate|]. exfalso; apply H. now exists rest.
    - intros e H. discriminate.
    - intros rest' H. apply (inj (String.append FILE_URI_PREFIX)) in H. now subst.
    - intros _ H. exfalso; apply H. now exists "file", rest.
    - intros dir [= <-]. now apply resolve_absolute. }
  assert (Hnp : ~ (exists rest, uri = "file://" +:+ rest)).
  { intros H. apply startsWith_spec in H. unfold FILE_URI_PREFIX in Ep. congruence. }
  destruct (JS.includes uri "://") eqn:Ei.
  - apply includes_spec in Ei. split_and!.
    + split; [intros _; now right | intros _; now eexists].
    + intros e [= <-]. right; left. now eexists.
    + intros rest H. exfalso; apply Hnp. now exists rest.
    + intros _ H. now destruct H.
    + intros dir H. discriminate.
  - apply includes_false_iff in Ei. split_and!.
    + split; [intros [e H]; discriminate|].
      intros [H|[_ H]]; [discriminate | done].
    + intros e H. discriminate.
    + intros rest H. exfalso; apply Hnp. now exists rest.
    + reflexivity.
    + intros dir [= <-]. now apply resolve_absolute.
Qed.

(** The HTTP branch, once the check on base and port has passed. *)
Lemma getFileUri_http storedFilename port config :
  truthyString (FileUriConfig.baseUrl config) || truthyNumber port = true ->
  getFileUri cwd numberText storedFilename
    (Some {| TransportConfig.type := http; TransportConfig.port := port |}) config
  = Ok (orElse (FileUriConfig.baseUrl config)
          ("http://localhost:" +:+ portToString numberText port)
        +:+ orElse (FileUriConfig.endpoint config) "/files"
        +:+ "/" +:+ storedFilename).
Proof.
  intros H. unfold getFileUri.
  destruct (truthyString _), (truthyNumber port); try discriminate; reflexivity.
Qed.

Lemma orElse_falsy o fallback : truthyString o = false -> orElse o fallback = fallback.
Proof. destruct o as [[|a s]|]; [reflexivity | discriminate | reflexivity]. Qed.

Lemma orElse_truthy v fallback : v <> EmptyString -> orElse (Some v) fallback = v.
Proof. destruct v; [congruence | reflexivity]. Qed.

(** C5, as amended.  [getFileUri] branches on the transport.  Absent or
    stdio: the [file://] URI over the resolved path of the store directory
    joined with the name, provided the store location resolves.  HTTP with
    a truthy port (any number but 0 and [NaN]) and no base (or an empty
    one): [http://localhost:{port}/files/{name}] when no endpoint (or an
    empty one) is configured, [http://localhost:{port}{endpoint}/{name}]
    otherwise, [{port}] being the text JavaScript gives the number.  HTTP
    with a non-empty base and a non-empty endpoint: [{base}{endpoint}/{name}].
    HTTP with no base (or an empty one) and no port (or a falsy one:
    0 or [NaN]): a configuration error. *)
Theorem getFileUri_branches storedFilename transport config :
  (forall dir,
      transport = None
      \/ (exists port, transport = Some {| TransportConfig.type := stdio;
                                           TransportConfig.port := port |}) ->
      resolveResourceStorePath cwd (FileUriConfig.resourceStoreUri config) = Ok dir ->
      getFileUri cwd numberText storedFilename transport config
      = Ok ("file://" +:+ Path.resolve cwd (Path.join dir storedFilename)))
  /\ (forall port,
        transport = Some {| TransportConfig.type := http;
                            TransportConfig.port := Some port |} ->
        JS.toBoolean port = true ->
        truthyString (FileUriConfig.baseUrl config) = false ->
        truthyString (FileUriConfig.endpoint config) = false ->
        getFileUri cwd numberText storedFilename transport config
        = Ok ("http://localhost:" +:+ numberText port +:+ "/files/"
              +:+ storedFilename))
  /\ (forall port endpoint,
        transport = Some {| TransportConfig.type := http;
                            TransportConfig.port := Some port |} ->
        JS.toBoolean port = true ->
        truthyString (FileUriConfig.baseUrl config) = false ->
        FileUriConfig.endpoint config = Some endpoint -> endpoint <> EmptyString ->
        getFileUri cwd numberText storedFilename transport config
        = Ok ("http://localhost:" +:+ numberText port +:+ endpoint +:+ "/"
              +:+ storedFilename))
  /\ (forall port base endpoint,
        transport = Some {| TransportConfig.type := http;
                            TransportConfig.port := port |} ->
        FileUriConfig.baseUrl config = Some base -> base <> EmptyString ->
        FileUriConfig.endpoint config = Some endpoint -> endpoint <> EmptyString ->
        getFileUri cwd numberText storedFilename transport config
        = Ok (base +:+ endpoint +:+ "/" +:+ storedFilename))
  /\ (forall port,
        transport = Some {| TransportConfig.type := http;
                            TransportConfig.port := port |} ->
        truthyString (FileUriConfig.baseUrl config) = false ->
        port = None \/ (exists n, port = Some n /\ JS.toBoolean n = false) ->
        exists e, isConfigurationError e
                  /\ getFileUri cwd numberText storedFilename transport config = Throw e).
Proof.
  split_and!.
  - intros dir [->|[port ->]] Hres; unfold getFileUri; now rewrite Hres.
  - intros port -> Hp Hb He. rewrite getFileUri_http.
    + rewrite !orElse_falsy by assumption. cbn [portToString].
      now rewrite !append_assoc.
    + rewrite Hb. cbn. exact Hp.
  - intros port endpoint -> Hp Hb He Hen. rewrite getFileUri_http.
    + rewrite orElse_falsy by assumption. rewrite He, orElse_truthy by assumption.
      cbn [portToString]. now rewrite !append_assoc.
    + rewrite Hb. cbn. exact Hp.
  - intros port base endpoint -> Hb Hbn He Hen. rewrite getFileUri_http.
    + rewrite Hb, He. now rewrite !orElse_truthy by assumption.
    + rewrite Hb. now destruct base.
  - intros port -> Hb Hp. exists (Error uriMessage). split.
    + right; right. reflexivity.
    + unfold getFileUri. rewrite Hb.
      destruct Hp as [->|(n & -> & Hn)]; [reflexivity|].
      cbn [truthyNumber]. now rewrite Hn.
Qed.

End Locations.

(** * The retrieval endpoint *)

Section Retrieval.

Context (expressContentType : string -> string).

Implicit Types (m : gmap string Fs.node) (dir delimiter name : string)
         (rawFilename : Param).

Lemma stat_exists m p node : Fs.stat m p = Some node -> Fs.existsSync m p = true.
Proof. unfold Fs.existsSync. now intros ->. Qed.

(** The guard comes first: when the joined path does not begin with the
    text of the store directory the answer is 403, whatever the disk
    holds. *)
Lemma guard_before_existence dir delimiter contentType contentDisposition m
      rawFilename name :
  missing rawFilename = false -> firstOf rawFilename = Some name ->
  JS.startsWith (Path.join dir name) dir = false ->
  handle expressContentType dir delimiter contentType contentDisposition m rawFilename
  = Response.send (Text "Access denied") (Response.withStatus 403 Response.fresh).
Proof.
  intros Hm Hf Hs. unfold handle, serve. rewrite Hm, Hf. cbn [joinChecked bind].
  now rewrite Hs.
Qed.

(** Status 200 is answered on one path only: a name was given, the
    joined path begins with the text of the store directory, and a regular
    file is read there, whose content is the body. *)
Lemma status_200_inv dir delimiter contentType contentDisposition m rawFilename :
  Response.status
    (handle expressContentType dir delimiter contentType contentDisposition m rawFilename)
  = 200 ->
  exists name data,
    firstOf rawFilename = Some name
    /\ JS.startsWith (Path.join dir name) dir = true
    /\ Fs.stat m (Path.join dir name) = Some (Fs.File data)
    /\ Response.body
         (handle expressContentType dir delimiter contentType contentDisposition m
            rawFilename)
       = Some (Buffer data).
Proof.
  unfold handle, serve. destruct (missing rawFilename); [discriminate|].
  destruct (firstOf rawFilename) as [name|]; cbn [joinChecked bind]; [|discriminate].
  destruct (JS.startsWith _ dir) eqn:Es; cbn [negb]; [|discriminate].
  unfold Fs.existsSync, Fs.readFileSync.
  destruct (Fs.stat m _) as [[data|]|] eqn:Et; cbn [negb bind]; try discriminate.
  intros _. now exists name, data.
Qed.

Lemma missing_is_400 dir delimiter contentType contentDisposition m rawFilename :
  missing rawFilename = true ->
  Response.status
    (handle expressContentType dir delimiter contentType contentDisposition m rawFilename)
  = 400.
Proof. intros Hm. unfold handle, serve. now rewrite Hm. Qed.

Lemma absent_is_404 dir delimiter contentType contentDisposition m rawFilename name :
  missing rawFilename = false -> firstOf rawFilename = Some name ->
  JS.startsWith (Path.join dir name) dir = true ->
  Fs.stat m (Path.join dir name) = None ->
  Response.status
    (handle expressContentType dir delimiter contentType contentDisposition m rawFilename)
  = 404.
Proof.
  intros Hm Hf Hs Hn. unfold handle, serve. rewrite Hm, Hf. cbn [joinChecked bind].
  rewrite Hs. unfold Fs.existsSync. now rewrite Hn.
Qed.

Lemma directory_is_500 dir delimiter contentType contentDisposition m rawFilename name :
  missing rawFilename = false -> firstOf rawFilename = Some name ->
  JS.startsWith (Path.join dir name) dir = true ->
  Fs.stat m (Path.join dir name) = Some Fs.Dir ->
  Response.status
    (handle expressContentType dir delimiter contentType contentDisposition m rawFilename)
  = 500.
Proof.
  intros Hm Hf Hs Hn. unfold handle, serve. rewrite Hm, Hf. cbn [joinChecked bind].
  rewrite Hs. unfold Fs.existsSync, Fs.readFileSync. now rewrite Hn.
Qed.

(** C7.  On the success path (a filename was given, the joined path
    passes the guard and a regular file is read there) the router answers
    200, the body is the content of that file, [Content-Type] is what
    Express makes of the configured constant or of the configured function
    applied to the stored name, and [Content-Disposition] is the configured
    disposition, [inline] or [attachment] ([attachment] when none is
    configured), followed by the percent-encoded original filename,
    recovered from the stored name by [parseStoredName], between double
    quotes. *)
Theorem retrieval_success {G : Type} (cwd : string) (config : FileServingConfig.t G)
        options dir m rawFilename name data :
  resolveResourceStorePath cwd (FileServingConfig.resourceStoreUri config) = Ok dir ->
  missing rawFilename = false -> firstOf rawFilename = Some name ->
  JS.startsWith (Path.join dir name) dir = true ->
  Fs.stat m (Path.join dir name) = Some (Fs.File data) ->
  exists handler,
    createFileServingRouter cwd expressContentType config options = Ok handler
    /\ Response.status (handler m rawFilename) = 200
    /\ Response.body (handler m rawFilename) = Some (Buffer data)
    /\ Response.headers (handler m rawFilename) !! "Content-Type"
       = Some (expressContentType
                 match FileServingRouterOptions.contentType options with
                 | inl value => value
                 | inr compute => compute name
                 end)
    /\ Response.headers (handler m rawFilename) !! "Content-Disposition"
       = Some (match FileServingRouterOptions.contentDisposition options with
               | Some inline => "inline"
               | Some attachment => "attachment"
               | None => "attachment"
               end
               +:+ "; filename=" +:+ JS.quote
               +:+ JS.encodeURIComponent
                     (ParsedName.filename
                        (parseStoredName name
                           (default "~" (FileServingConfig.delimiter config))))
               +:+ JS.quote).
Proof.
  intros Hres Hm Hf Hs Hst. eexists. split.
  { unfold createFileServingRouter. rewrite Hres. reflexivity. }
  unfold handle, serve. rewrite Hm, Hf. cbn [joinChecked bind].
  rewrite Hs, (stat_exists _ _ _ Hst). cbn [negb].
  unfold Fs.readFileSync. rewrite Hst. cbn [bind default].
  split_and!.
  - reflexivity.
  - reflexivity.
  - cbn [Response.headers Response.send Response.setHeader].
    rewrite lookup_insert_ne by discriminate. rewrite lookup_insert_eq.
    unfold applyContentType. now destruct (FileServingRouterOptions.contentType options).
  - cbn [Response.headers Response.send Response.setHeader].
    rewrite lookup_insert_eq.
    now destruct (FileServingRouterOptions.contentDisposition options) as [[|]|].
Qed.

End Retrieval.

(** * Worked examples *)

Example startsWith_ex : JS.startsWith "/tmp/files-secret/x" "/tmp/files" = true.
Proof. reflexivity. Qed.

Example indexOf_ex :
  JS.indexOf "abc123-my-report.pdf" "-" = 6 /\ JS.indexOf "report.pdf" "-" = -1
  /\ JS.indexOf "abc" EmptyString = 0.
Proof. repeat split; reflexivity. Qed.

Example encode_ex : JS.encodeURIComponent "a b.txt" = "a%20b.txt".
Proof. reflexivity. Qed.

Example number_ex : JS.numberToString 3000 = "3000" /\ JS.numberToString 0 = "0".
Proof. split; reflexivity. Qed.

Example join_ex :
  Path.join "/tmp/files" "a~b.txt" = "/tmp/files/a~b.txt"
  /\ Path.join "/tmp/files" "../../etc/passwd" = "/etc/passwd"
  /\ Path.join "/tmp/files" "../files-secret/x" = "/tmp/files-secret/x"
  /\ Path.join "/tmp/files" "/etc/passwd" = "/tmp/files/etc/passwd"
  /\ Path.join "/tmp/files" "sub/" = "/tmp/files/sub/"
  /\ Path.join "/tmp/files" "." = "/tmp/files"
  /\ Path.join "a" "../../b" = "../b".
Proof. repeat split; reflexivity. Qed.

Example resolve_ex :
  Path.resolve "/home/app" "files" = "/home/app/files"
  /\ Path.resolve "/home/app" "/tmp//files/" = "/tmp/files"
  /\ Path.resolve "/home/app" EmptyString = "/home/app"
  /\ Path.resolve "/home/app" "../.." = "/"
  /\ Path.ancestors "/tmp/a/b" = ["/tmp"; "/tmp/a"; "/tmp/a/b"]
  /\ Path.dirname "/tmp/a/b" = "/tmp/a".
Proof. repeat split; reflexivity. Qed.

Example parse_ex :
  parseStoredName (formatStoredName "abc123" "my-report-v2.pdf" "-") "-"
  = {| ParsedName.id := "abc123"; ParsedName.filename := "my-report-v2.pdf" |}
  /\ parseStoredName "abc-def-ghi-report-2024-final.pdf" "-"
     = {| ParsedName.id := "abc"; ParsedName.filename := "def-ghi-report-2024-final.pdf" |}
  /\ parseStoredName "invalid-format.pdf" "|"
     = {| ParsedName.id := "invalid-format.pdf"; ParsedName.filename := "invalid-format.pdf" |}.
Proof. repeat split; reflexivity. Qed.

Example getFileUri_ex :
  let config := {| FileUriConfig.resourceStoreUri := "file:///tmp/files";
                   FileUriConfig.baseUrl := None; FileUriConfig.endpoint := None |} in
  let withBase := {| FileUriConfig.resourceStoreUri := "file:///tmp/files";
                     FileUriConfig.baseUrl := Some "https://example.com";
                     FileUriConfig.endpoint := Some "/api/files" |} in
  let onPort := Some {| TransportConfig.type := http;
                        TransportConfig.port := Some (JS.integer 3000) |} in
  getFileUri "/home/app" Demo.numberText "test-file.pdf"
    (Some {| TransportConfig.type := stdio; TransportConfig.port := None |}) config
  = Ok "file:///tmp/files/test-file.pdf"
  /\ getFileUri "/home/app" Demo.numberText "test-file.pdf" None config
     = Ok "file:///tmp/files/test-file.pdf"
  /\ getFileUri "/home/app" Demo.numberText "test-file.pdf" onPort config
     = Ok "http://localhost:3000/files/test-file.pdf"
  /\ getFileUri "/home/app" Demo.numberText "test-file.pdf" onPort withBase
     = Ok "https://example.com/api/files/test-file.pdf"
  /\ getFileUri "/home/app" Demo.numberText "test-file.pdf"
       (Some {| TransportConfig.type := http; TransportConfig.port := None |}) config
     = Throw (Error uriMessage).
Proof. repeat split; reflexivity. Qed.

(** The store of the examples, served as plain text. *)
Example router_ex :
  let config := {| FileServingConfig.resourceStoreUri := "file:///tmp/files";
                   FileServingConfig.delimiter := None;
                   FileServingConfig.generateId := @None (nat -> string * nat) |} in
  let options := {| FileServingRouterOptions.contentType := inl "text/plain";
                    FileServingRouterOptions.contentDisposition := None |} in
  exists handler,
    createFileServingRouter "/home/app" Demo.mediaType config options = Ok handler
    /\ Response.status (handler Demo.disk PUndefined) = 400
    /\ Response.status (handler Demo.disk (PString "../../etc/passwd")) = 403
    /\ Response.status (handler Demo.disk (PString "..")) = 403
    /\ Response.status (handler Demo.disk (PString "/etc/passwd")) = 404
    /\ Response.status (handler Demo.disk (PString "nothing~here.txt")) = 404
    /\ Response.status (handler Demo.disk (PString "sub")) = 500
    /\ Response.status (handler Demo.disk (PArray [])) = 500
    /\ Response.status (handler Demo.disk (PString "0000-1~a b.txt")) = 200.
Proof. eexists. split; [reflexivity|]. repeat split; vm_compute; reflexivity. Qed.

(** * The claims at concrete inputs *)

(** ** Name codec *)

(** C3, where the code departs from the claim.  The delimiter is two
    underscores and the generator yields [id7_].  The identifier does not
    contain the delimiter, so [generateValidatedId] accepts it at the first
    attempt and [writeFile] stores the file under [id7___data.json].  The
    first occurrence of the delimiter in that name starts on the last
    character of the identifier: [parseStoredName] returns the identifier
    [id7] and the filename [_data.json], and the router, asked for the
    stored name, serves the file under the filename [_data.json]. *)
Theorem validated_identifier_is_misparsed :
  let config := {| FileServingConfig.resourceStoreUri := "file:///tmp/files";
                   FileServingConfig.delimiter := Some "__";
                   FileServingConfig.generateId := Some (Demo.constant "id7_") |} in
  let options := {| FileServingRouterOptions.contentType := inl "text/plain";
                    FileServingRouterOptions.contentDisposition := None |} in
  let w := {| fs := ∅; gen := 0%nat; calls := 0 |} in
  let written := writeFile Demo.uuid "/home/app" (Demo.bytes "{}") "data.json" config w in
  ~ occurs "__" "id7_"
  /\ fst (generateValidatedId "__" (Demo.constant "id7_") w) = Ok "id7_"
  /\ fst written
     = Ok {| FileReservation.id := "id7_";
             FileReservation.storedName := "id7___data.json";
             FileReservation.fullPath := "/tmp/files/id7___data.json" |}
  /\ formatStoredName "id7_" "data.json" "__" = "id7___data.json"
  /\ parseStoredName (formatStoredName "id7_" "data.json" "__") "__"
     = {| ParsedName.id := "id7"; ParsedName.filename := "_data.json" |}
  /\ parseStoredName (formatStoredName "id7_" "data.json" "__") "__"
     <> {| ParsedName.id := "id7_"; ParsedName.filename := "data.json" |}
  /\ exists handler,
       createFileServingRouter "/home/app" Demo.mediaType config options = Ok handler
       /\ Response.status (handler (fs (snd written)) (PString "id7___data.json")) = 200
       /\ Response.headers (handler (fs (snd written)) (PString "id7___data.json"))
            !! "Content-Disposition"
          = Some ("attachment; filename=" +:+ JS.quote +:+ "_data.json" +:+ JS.quote).
Proof.
  intros config options w written.
  split; [now apply includes_false_iff|].
  split; [vm_compute; reflexivity|].
  split; [vm_compute; reflexivity|].
  split; [reflexivity|]. split; [reflexivity|]. split; [discriminate|].
  eexists. split; [reflexivity|]. split; vm_compute; reflexivity.
Qed.

Lemma parse_format_roundtrip_witness :
  ~ occurs "::" "abc:123"
  /\ ~ overlaps "abc:123" "::"
  /\ parseStoredName (formatStoredName "abc:123" "a::b.txt" "::") "::"
     = {| ParsedName.id := "abc:123"; ParsedName.filename := "a::b.txt" |}.
Proof.
  assert (H1 : ~ occurs "::" "abc:123") by now apply includes_false_iff.
  assert (H2 : ~ overlaps "abc:123" "::") by now apply overlapsb_false.
  split; [exact H1|]. split; [exact H2|].
  exact (parse_format_roundtrip "abc:123" "a::b.txt" "::" H1 H2).
Defined.

Lemma parseStoredName_fallback_witness :
  ~ occurs "-" "report.pdf"
  /\ parseStoredName "report.pdf" "-"
     = {| ParsedName.id := "report.pdf"; ParsedName.filename := "report.pdf" |}.
Proof.
  assert (H : ~ occurs "-" "report.pdf") by now apply includes_false_iff.
  split; [exact H|]. exact (parseStoredName_fallback "report.pdf" "-" H).
Defined.

(** ** Generation and reservation *)

Lemma generation_ceiling_witness :
  (forall g, occurs "~" (fst (Demo.constant "a~b" g)))
  /\ exists w',
      generateValidatedId "~" (Demo.constant "a~b")
        {| fs := ∅; gen := 0%nat; calls := 0 |}
      = (Throw (Error "Failed to generate ID without delimiter '~' after 100 attempts. Consider using a different delimiter or custom ID generator."),
         w')
      /\ calls w' = 100%nat.
Proof.
  assert (H : forall g, occurs "~" (fst (Demo.constant "a~b" g))).
  { intros g. now exists "a", "b". }
  split; [exact H|].
  destruct (generation_ceiling "~" (Demo.constant "a~b")
              {| fs := ∅; gen := 0%nat; calls := 0 |} H) as (w' & Hrun & Hcalls & _).
  exists w'. split; [exact Hrun | exact Hcalls].
Defined.

Lemma reserveFile_reservation_witness :
  let config := {| FileServingConfig.resourceStoreUri := "file:///tmp/files";
                   FileServingConfig.delimiter := None;
                   FileServingConfig.generateId := None |} in
  let w := {| fs := ∅; gen := 7%nat; calls := 0 |} in
  let r := {| FileReservation.id := "0000-7";
              FileReservation.storedName := "0000-7~export.csv";
              FileReservation.fullPath := "/tmp/files/0000-7~export.csv" |} in
  let w' := snd (reserveFile Demo.uuid "/home/app" "export.csv" config w) in
  reserveFile Demo.uuid "/home/app" "export.csv" config w = (Ok r, w')
  /\ fs w' !! "/tmp/files" = Some Fs.Dir
  /\ Fs.mkdir (fs w') "/tmp/files" = Ok (fs w')
  /\ forall data, Fs.stat (fs w') (FileReservation.fullPath r) <> Some (Fs.File data).
Proof.
  intros config w r w'.
  assert (H : reserveFile Demo.uuid "/home/app" "export.csv" config w = (Ok r, w'))
    by (vm_compute; reflexivity).
  split; [exact H|].
  destruct (reserveFile_reservation Demo.uuid "/home/app" "export.csv" config w r w' H)
    as (outputDir & Hres & _ & _ & _ & _ & Hidem & _ & Hdirs & _ & Hfile).
  assert (outputDir = "/tmp/files") as -> by (vm_compute in Hres; congruence).
  split; [apply Hdirs; apply elem_of_cons; right; apply elem_of_cons; now left|].
  split; [exact Hidem|].
  intros data Hd. apply Hfile in Hd. vm_compute in Hd. discriminate.
Defined.

(** C10 fails as first stated: with the empty delimiter and a store
    location of an unsupported scheme the call fails before any identifier
    is generated, with the configuration error and not the generation
    error. *)
Lemma empty_delimiter_counterexample :
  let config := {| FileServingConfig.resourceStoreUri := "s3://bucket/files";
                   FileServingConfig.delimiter := Some EmptyString;
                   FileServingConfig.generateId := None |} in
  let w := {| fs := ∅; gen := 0%nat; calls := 0 |} in
  reserveFile Demo.uuid "/home/app" "report.pdf" config w
  = (Throw (Error (unsupportedMessage "s3://bucket/files")), w)
  /\ ~ isGenerationError EmptyString (Error (unsupportedMessage "s3://bucket/files"))
  /\ calls w = 0%nat.
Proof.
  split; [reflexivity|]. split; [|reflexivity].
  unfold isGenerationError. vm_compute. discriminate.
Qed.

Lemma empty_delimiter_never_reserves_witness :
  let config := {| FileServingConfig.resourceStoreUri := "file:///tmp/files";
                   FileServingConfig.delimiter := Some EmptyString;
                   FileServingConfig.generateId := None |} in
  let w := {| fs := ∅; gen := 0%nat; calls := 0 |} in
  FileServingConfig.delimiter config = Some EmptyString
  /\ exists e w',
      isGenerationError EmptyString e
      /\ reserveFile Demo.uuid "/home/app" "report.pdf" config w = (Throw e, w')
      /\ calls w' = 100%nat.
Proof.
  intros config w. split; [reflexivity|].
  destruct (empty_delimiter_never_reserves Demo.uuid "/home/app" "report.pdf" config w
              eq_refl) as (_ & _ & H).
  destruct (H "/tmp/files" (Fs.mkdirAll ∅ ["/tmp"; "/tmp/files"]) eq_refl eq_refl)
    as (e & w' & He & Hr & _ & Hc & _).
  exists e, w'. split; [exact He|]. split; [exact Hr | exact Hc].
Defined.

(** ** Store location and URIs *)

(** C5 fails as first stated: with an HTTP transport on port 3000, no base
    and the endpoint [/exports], the URI carries the configured endpoint
    and is not the one over [/files]; and with the port 0, which is a port
    all the same, the call throws. *)
Lemma getFileUri_counterexample :
  let onPort p := Some {| TransportConfig.type := http;
                          TransportConfig.port := Some (JS.integer p) |} in
  let config e := {| FileUriConfig.resourceStoreUri := "file:///tmp/files";
                     FileUriConfig.baseUrl := None; FileUriConfig.endpoint := e |} in
  getFileUri "/home/app" Demo.numberText "test-file.pdf" (onPort 3000)
    (config (Some "/exports"))
  = Ok "http://localhost:3000/exports/test-file.pdf"
  /\ getFileUri "/home/app" Demo.numberText "test-file.pdf" (onPort 3000)
       (config (Some "/exports"))
     <> Ok "http://localhost:3000/files/test-file.pdf"
  /\ getFileUri "/home/app" Demo.numberText "test-file.pdf" (onPort 0) (config None)
     = Throw (Error uriMessage).
Proof. split; [reflexivity|]. split; [discriminate | reflexivity]. Qed.

Lemma getFileUri_branches_witness :
  let config := {| FileUriConfig.resourceStoreUri := "file:///tmp/files";
                   FileUriConfig.baseUrl := None; FileUriConfig.endpoint := None |} in
  let onPort n := Some {| TransportConfig.type := http; TransportConfig.port := Some n |} in
  JS.toBoolean (JS.integer 3000) = true
  /\ getFileUri "/home/app" Demo.numberText "abc~report.pdf" (onPort (JS.integer 3000)) config
     = Ok "http://localhost:3000/files/abc~report.pdf"
  /\ getFileUri "/home/app" Demo.numberText "abc~report.pdf" None config
     = Ok "file:///tmp/files/abc~report.pdf"
  /\ JS.toBoolean JS.NaN = false
  /\ exists e, isConfigurationError e
               /\ getFileUri "/home/app" Demo.numberText "abc~report.pdf" (onPort JS.NaN) config
                  = Throw e.
Proof.
  intros config onPort.
  assert (Hp : JS.toBoolean (JS.integer 3000) = true) by reflexivity.
  assert (Hn : JS.toBoolean JS.NaN = false) by reflexivity.
  split; [exact Hp|]. split.
  - destruct (getFileUri_branches "/home/app" Demo.numberText "abc~report.pdf"
                (onPort (JS.integer 3000)) config) as (_ & H & _).
    exact (H (JS.integer 3000) eq_refl Hp eq_refl eq_refl).
  - split.
    + destruct (getFileUri_branches "/home/app" Demo.numberText "abc~report.pdf" None config)
        as (H & _).
      exact (H "/tmp/files" (or_introl eq_refl) eq_refl).
    + split; [exact Hn|].
      destruct (getFileUri_branches "/home/app" Demo.numberText "abc~report.pdf"
                  (onPort JS.NaN) config) as (_ & _ & _ & _ & H).
      exact (H (Some JS.NaN) eq_refl eq_refl
               (or_intror (ex_intro _ JS.NaN (conj eq_refl Hn)))).
Defined.

Lemma resolveResourceStorePath_cases_witness :
  Path.isAbsolute "/home/app" = true
  /\ resolveResourceStorePath "/home/app" "file://./files" = Ok "/home/app/files"
  /\ Path.isAbsolute "/home/app/files" = true.
Proof.
  assert (Hc : Path.isAbsolute "/home/app" = true) by reflexivity.
  split; [exact Hc|].
  destruct (resolveResourceStorePath_cases "/home/app" "file://./files" Hc)
    as (_ & _ & Hfile & _ & Habs).
  split; [exact (Hfile "./files" eq_refl) | exact (Habs _ (Hfile "./files" eq_refl))].
Defined.

(** ** Retrieval *)

Lemma retrieval_success_witness :
  let config := {| FileServingConfig.resourceStoreUri := "file:///tmp/files";
                   FileServingConfig.delimiter := None;
                   FileServingConfig.generateId := @None (nat -> string * nat) |} in
  let options := {| FileServingRouterOptions.contentType := inr Demo.byExtension;
                    FileServingRouterOptions.contentDisposition := Some inline |} in
  let name := "0000-1~a b.txt" in
  resolveResourceStorePath "/home/app" "file:///tmp/files" = Ok "/tmp/files"
  /\ JS.startsWith (Path.join "/tmp/files" name) "/tmp/files" = true
  /\ Fs.stat Demo.disk (Path.join "/tmp/files" name) = Some (Fs.File (Demo.bytes "hello"))
  /\ exists handler,
      createFileServingRouter "/home/app" Demo.mediaType config options = Ok handler
      /\ Response.status (handler Demo.disk (PString name)) = 200
      /\ Response.body (handler Demo.disk (PString name)) = Some (Buffer (Demo.bytes "hello"))
      /\ Response.headers (handler Demo.disk (PString name)) !! "Content-Type"
         = Some "text/plain; charset=utf-8"
      /\ Response.headers (handler Demo.disk (PString name)) !! "Content-Disposition"
         = Some ("inline; filename=" +:+ JS.quote +:+ "a%20b.txt" +:+ JS.quote).
Proof.
  intros config options name.
  assert (H1 : resolveResourceStorePath "/home/app" "file:///tmp/files" = Ok "/tmp/files")
    by reflexivity.
  assert (H2 : JS.startsWith (Path.join "/tmp/files" name) "/tmp/files" = true)
    by reflexivity.
  assert (H3 : Fs.stat Demo.disk (Path.join "/tmp/files" name)
               = Some (Fs.File (Demo.bytes "hello"))) by (vm_compute; reflexivity).
  split; [exact H1|]. split; [exact H2|]. split; [exact H3|].
  exact (retrieval_success Demo.mediaType "/home/app" config options "/tmp/files"
           Demo.disk (PString name) name (Demo.bytes "hello") H1 eq_refl eq_refl H2 H3).
Defined.

(** A name that is a directory of the store passes the guard and exists,
    reading it fails, and the request is answered 500. *)
Example directory_request_ex :
  let config := {| FileServingConfig.resourceStoreUri := "file:///tmp/files";
                   FileServingConfig.delimiter := None;
                   FileServingConfig.generateId := @None (nat -> string * nat) |} in
  let options := {| FileServingRouterOptions.contentType := inl "text/plain";
                    FileServingRouterOptions.contentDisposition := None |} in
  exists handler,
    createFileServingRouter "/home/app" Demo.mediaType config options = Ok handler
    /\ Fs.stat Demo.disk (Path.join "/tmp/files" "sub") = Some Fs.Dir
    /\ Response.status (handler Demo.disk (PString "sub")) = 500.
Proof.
  intros config options. eexists. split; [reflexivity|].
  split; vm_compute; reflexivity.
Qed.

(** C1, where the code departs from the claim.  The guard tests that the
    joined path begins with the characters of the store directory, not
    that it lies under it.  The store is [/tmp/files]; the requested name,
    [../files-secret/x] once Express has decoded it, joins to
    [/tmp/files-secret/x], a file outside the store.  The joined path still
    begins with the characters of the store directory, so the guard lets it
    through and the file is served: the status is 200, not 403 and not 404,
    and the body is the content of the file outside the store. *)
Theorem sibling_directory_is_served :
  let config := {| FileServingConfig.resourceStoreUri := "file:///tmp/files";
                   FileServingConfig.delimiter := None;
                   FileServingConfig.generateId := @None (nat -> string * nat) |} in
  let options := {| FileServingRouterOptions.contentType := inl "text/plain";
                    FileServingRouterOptions.contentDisposition := None |} in
  let r := "../files-secret/x" in
  exists handler,
    createFileServingRouter "/home/app" Demo.mediaType config options = Ok handler
    /\ Path.join "/tmp/files" r = "/tmp/files-secret/x"
    /\ ~ Path.within "/tmp/files" (Path.join "/tmp/files" r)
    /\ JS.startsWith (Path.join "/tmp/files" r) "/tmp/files" = true
    /\ Response.status (handler Demo.disk (PString r)) = 200
    /\ Response.status (handler Demo.disk (PString r)) <> 403
    /\ Response.status (handler Demo.disk (PString r)) <> 404
    /\ Response.body (handler Demo.disk (PString r))
       = Some (Buffer (Demo.bytes "top secret")).
Proof.
  intros config options r. eexists. split; [reflexivity|].
  split; [reflexivity|]. split.
  - intros [rest H]. vm_compute in H. discriminate.
  - split; [reflexivity|]. split; [vm_compute; reflexivity|].
    split; [vm_compute; discriminate|]. split; [vm_compute; discriminate|].
    vm_compute; reflexivity.
Qed.

(** C2, where the code departs from the claim.  A requested name whose
    joined path leaves the store for a directory next to it with the same
    beginning, and at which nothing exists, is answered 404 and not 403: the
    guard, although evaluated before the existence check, does not see that
    the path has left the store. *)
Theorem sibling_directory_missing_is_404 :
  let config := {| FileServingConfig.resourceStoreUri := "file:///tmp/files";
                   FileServingConfig.delimiter := None;
                   FileServingConfig.generateId := @None (nat -> string * nat) |} in
  let options := {| FileServingRouterOptions.contentType := inl "text/plain";
                    FileServingRouterOptions.contentDisposition := None |} in
  let r := "../files-secret/nope" in
  exists handler,
    createFileServingRouter "/home/app" Demo.mediaType config options = Ok handler
    /\ Path.join "/tmp/files" r = "/tmp/files-secret/nope"
    /\ ~ Path.within "/tmp/files" (Path.join "/tmp/files" r)
    /\ Fs.existsSync Demo.disk (Path.join "/tmp/files" r) = false
    /\ Response.status (handler Demo.disk (PString r)) = 404.
Proof.
  intros config options r. eexists. split; [reflexivity|].
  split; [reflexivity|]. split.
  - intros [rest H]. vm_compute in H. discriminate.
  - split; vm_compute; reflexivity.
Qed.

(** * Paths of one more segment *)

Section Segments.

Implicit Types (s name dir : string) (L M stack : list string).

Lemma includes_slash_cons a s :
  JS.includes (String a s) "/" = false ->
  Ascii.eqb a Path.slash = false /\ JS.includes s "/" = false.
Proof.
  unfold JS.includes. rewrite search_eq.
  change (JS.startsWith (String a s) "/") with
    (if Ascii.eqb a Path.slash then JS.startsWith s EmptyString else false).
  destruct (Ascii.eqb a Path.slash).
  - destruct s; discriminate.
  - intros H. split; [reflexivity|].
    destruct (JS.search s "/" 1) eqn:E; [discriminate|].
    apply search_absent in E. apply includes_false_iff in E. exact E.
Qed.

Lemma split_nonempty s : Path.split s <> [].
Proof.
  destruct s as [|a s]; [discriminate|]. simpl.
  destruct (Ascii.eqb a Path.slash); [discriminate|].
  destruct (Path.split s); discriminate.
Qed.

(** A text without slash is a single segment. *)
Lemma split_single s : JS.includes s "/" = false -> Path.split s = [s].
Proof.
  induction s as [|a s IH]; intros H; [reflexivity|].
  apply includes_slash_cons in H as [Ha Hs]. simpl. rewrite Ha, (IH Hs). reflexivity.
Qed.

(** Splitting goes through a slash. *)
Lemma split_glue s1 s2 :
  Path.split (s1 +:+ "/" +:+ s2) = Path.split s1 ++ Path.split s2.
Proof.
  induction s1 as [|a s1 IH]; [reflexivity|].
  simpl in IH |- *. rewrite IH. destruct (Ascii.eqb a Path.slash); [reflexivity|].
  destruct (Path.split s1) as [|seg rest] eqn:E; [now apply split_nonempty in E|].
  reflexivity.
Qed.

Lemma plain_inv name :
  plain name = true ->
  name <> EmptyString /\ name <> "." /\ name <> ".." /\ JS.includes name "/" = false.
Proof.
  unfold plain. rewrite !andb_true_iff, !negb_true_iff.
  intros [[[H1 H2] H3] H4]. split_and!; try assumption.
  - now apply String.eqb_neq.
  - now apply String.eqb_neq.
  - now apply String.eqb_neq.
Qed.

(** An ordinary segment is pushed, whether or not the path is absolute. *)
Lemma step_plain allowAboveRoot stack name :
  plain name = true -> Path.step allowAboveRoot stack name = name :: stack.
Proof.
  unfold plain, Path.step. rewrite !andb_true_iff, !negb_true_iff.
  intros [[[-> ->] ->] _]. reflexivity.
Qed.

Lemma fold_plain allowAboveRoot M stack :
  Forall (fun seg => plain seg = true) M ->
  fold_left (Path.step allowAboveRoot) M stack = rev M ++ stack.
Proof.
  intros H. revert stack. induction H as [|seg M Hs _ IH]; intros stack; [reflexivity|].
  cbn [fold_left rev]. rewrite (step_plain _ _ _ Hs), IH, <- app_assoc. reflexivity.
Qed.

Lemma normalizeSegments_snoc allowAboveRoot L name :
  plain name = true ->
  Path.normalizeSegments allowAboveRoot (L ++ [name])
  = Path.normalizeSegments allowAboveRoot L ++ [name].
Proof.
  intros H. unfold Path.normalizeSegments.
  rewrite fold_left_app. cbn [fold_left]. rewrite (step_plain _ _ _ H). reflexivity.
Qed.

(** Whatever the input, normalisation from the root keeps ordinary
    segments only. *)
Lemma step_keeps_plain stack seg :
  JS.includes seg "/" = false ->
  Forall (fun x => plain x = true) stack ->
  Forall (fun x => plain x = true) (Path.step false stack seg).
Proof.
  intros Hs Hst. unfold Path.step.
  destruct (String.eqb seg EmptyString) eqn:E1; [assumption|].
  destruct (String.eqb seg ".") eqn:E2; [assumption|]. cbn [orb].
  destruct (String.eqb seg "..") eqn:E3.
  - destruct stack as [|last rest]; [constructor|].
    destruct (String.eqb last ".."); [assumption|]. now inversion Hst.
  - constructor; [|assumption]. unfold plain. now rewrite E1, E2, E3, Hs.
Qed.

Lemma split_no_slash s : Forall (fun seg => JS.includes seg "/" = false) (Path.split s).
Proof.
  induction s as [|a s IH]; simpl; [now repeat constructor|].
  destruct (Ascii.eqb a Path.slash) eqn:Ea; [now constructor|].
  destruct (Path.split s) as [|seg rest] eqn:Es; [now apply split_nonempty in Es|].
  inversion IH as [|? ? Hseg Hrest]; subst. constructor; [|assumption].
  unfold JS.includes in *. rewrite search_eq.
  change (JS.startsWith (String a seg) "/") with
    (if Ascii.eqb a Path.slash then JS.startsWith seg EmptyString else false).
  rewrite Ea.
  destruct (JS.search seg "/" 1) eqn:E1; [|reflexivity].
  destruct (JS.search seg "/" 0) eqn:E0; [discriminate|].
  apply search_absent in E0. apply search_found in E1 as (pre & post & -> & _).
  exfalso; apply E0. now exists pre, post.
Qed.

Lemma segments_plain p : Forall (fun x => plain x = true) (segments p).
Proof.
  unfold segments, Path.normalizeSegments. apply Forall_rev.
  assert (H : forall xs stack,
             Forall (fun seg => JS.includes seg "/" = false) xs ->
             Forall (fun x => plain x = true) stack ->
             Forall (fun x => plain x = true) (fold_left (Path.step false) xs stack)).
  { induction xs as [|x xs IH]; intros stack Hxs Hst; [assumption|].
    inversion Hxs; subst. cbn [fold_left]. apply IH; [assumption|].
    now apply step_keeps_plain. }
  apply H; [apply split_no_slash | constructor].
Qed.

Lemma unsplit_snoc L name :
  Path.unsplit (L ++ [name])
  = match L with [] => name | _ => Path.unsplit L +:+ "/" +:+ name end.
Proof.
  induction L as [|x L IH]; [reflexivity|].
  destruct L as [|y L]; [reflexivity|].
  change (Path.unsplit ((x :: y :: L) ++ [name]))
    with (x +:+ "/" +:+ Path.unsplit ((y :: L) ++ [name])).
  rewrite IH. change (Path.unsplit (x :: y :: L)) with (x +:+ "/" +:+ Path.unsplit (y :: L)).
  now rewrite !append_assoc.
Qed.

Lemma split_unsplit M :
  M <> [] -> Forall (fun seg => JS.includes seg "/" = false) M ->
  Path.split (Path.unsplit M) = M.
Proof.
  intros Hne H. induction H as [|x M Hx HM IH]; [congruence|].
  destruct M as [|y M]; [now apply split_single|].
  change (Path.unsplit (x :: y :: M)) with (x +:+ "/" +:+ Path.unsplit (y :: M)).
  rewrite split_glue, (split_single _ Hx), IH by discriminate. reflexivity.
Qed.

Lemma plain_no_slash M :
  Forall (fun x => plain x = true) M ->
  Forall (fun seg => JS.includes seg "/" = false) M.
Proof.
  intros H. eapply Forall_impl; [exact H|].
  intros x Hx. now apply plain_inv in Hx.
Qed.

(** Read back from the root, a list of ordinary segments is itself. *)
Lemma segments_root M :
  Forall (fun x => plain x = true) M -> segments ("/" +:+ Path.unsplit M) = M.
Proof.
  intros H. unfold segments, Path.normalizeSegments.
  destruct M as [|x M].
  - reflexivity.
  - change (Path.split ("/" +:+ Path.unsplit (x :: M)))
      with (EmptyString :: Path.split (Path.unsplit (x :: M))).
    rewrite split_unsplit by (discriminate || now apply plain_no_slash).
    change (fold_left (Path.step false) (EmptyString :: x :: M) [])
      with (fold_left (Path.step false) (x :: M) []).
    rewrite (fold_plain _ _ _ H), app_nil_r. apply rev_involutive.
Qed.

Lemma normalizeString_normal x : normalPath ("/" +:+ Path.normalizeString x false).
Proof.
  unfold normalPath, Path.normalizeString. fold (segments x).
  now rewrite (segments_root (segments x)) by apply segments_plain.
Qed.

(** What [path.resolve] returns is in normal form. *)
Lemma resolve_normal cwd p :
  Path.isAbsolute cwd = true -> normalPath (Path.resolve cwd p).
Proof.
  intros Hc. unfold Path.resolve.
  rewrite Hc, (absolute_truthy _ Hc), orb_true_r. cbv zeta.
  destruct (JS.truthy p && Path.isAbsolute p); apply normalizeString_normal.
Qed.

Lemma lastIs_append c s1 s2 :
  s2 <> EmptyString -> JS.lastIs c (s1 +:+ s2) = JS.lastIs c s2.
Proof.
  intros H. induction s1 as [|a s1 IH]; [reflexivity|].
  simpl. destruct (s1 +:+ s2) eqn:E; [|assumption].
  destruct s1; [simpl in E; congruence | discriminate].
Qed.

Lemma lastIs_no_slash s : JS.includes s "/" = false -> JS.lastIs Path.slash s = false.
Proof.
  induction s as [|a s IH]; intros H; [reflexivity|].
  apply includes_slash_cons in H as [Ha Hs]. simpl.
  destruct s; [assumption | now apply IH].
Qed.

Lemma truthy_append_r s1 s2 : JS.truthy s2 = true -> JS.truthy (s1 +:+ s2) = true.
Proof. destruct s1; [now simpl | reflexivity]. Qed.

Lemma truthy_plain name : plain name = true -> JS.truthy name = true.
Proof. intros H. apply plain_inv in H as (H & _). now destruct name. Qed.

(** Joining an ordinary name to an absolute directory adds one segment. *)
Lemma join_plain dir name :
  Path.isAbsolute dir = true -> plain name = true ->
  Path.join dir name = "/" +:+ Path.unsplit (segments dir ++ [name]).
Proof.
  intros Hd Hn. pose proof (plain_inv _ Hn) as (Hne & _ & _ & Hs).
  unfold Path.join. rewrite (absolute_truthy _ Hd), (truthy_plain _ Hn).
  unfold Path.normalize.
  assert (Ht : JS.truthy (dir +:+ "/" +:+ name) = true)
    by (destruct dir; [discriminate | reflexivity]).
  assert (Ha : Path.isAbsolute (dir +:+ "/" +:+ name) = true).
  { destruct dir as [|a d]; [discriminate|]. unfold Path.isAbsolute in *.
    simpl in Hd |- *. destruct (Ascii.eqb a "/"); [now destruct d | discriminate]. }
  assert (Hl : JS.lastIs Path.slash (dir +:+ "/" +:+ name) = false).
  { rewrite <- append_assoc, lastIs_append by assumption. now apply lastIs_no_slash. }
  rewrite Ht, Ha, Hl. cbn [negb]. unfold Path.normalizeString.
  rewrite split_glue, (split_single _ Hs), normalizeSegments_snoc by assumption.
  fold (segments dir).
  assert (Hp : JS.truthy (Path.unsplit (segments dir ++ [name])) = true).
  { rewrite unsplit_snoc. destruct (segments dir); [now apply truthy_plain|].
    rewrite <- append_assoc. apply truthy_append_r. now apply truthy_plain. }
  now rewrite Hp.
Qed.

(** Under a directory in normal form, an ordinary name gives the
    directory, a slash (unless the directory is the root) and the name: the
    result begins with the directory and lies in it. *)
Lemma join_normal_plain dir name :
  normalPath dir -> plain name = true ->
  Path.join dir name
  = (if String.eqb dir "/" then "/" +:+ name else dir +:+ "/" +:+ name)
  /\ JS.startsWith (Path.join dir name) dir = true
  /\ segments (Path.join dir name) = segments dir ++ [name]
  /\ Path.within dir (Path.join dir name).
Proof.
  intros Hd Hn.
  assert (Ha : Path.isAbsolute dir = true)
    by (rewrite Hd; apply startsWith_append).
  assert (Hseg : segments (Path.join dir name) = segments dir ++ [name]).
  { rewrite (join_plain _ _ Ha Hn). apply segments_root.
    apply Forall_app. split; [apply segments_plain | now repeat constructor]. }
  assert (Hj : Path.join dir name
               = if String.eqb dir "/" then "/" +:+ name else dir +:+ "/" +:+ name).
  { rewrite (join_plain _ _ Ha Hn), unsplit_snoc.
    destruct (segments dir) as [|x L] eqn:E.
    - rewrite Hd, E. reflexivity.
    - destruct (String.eqb dir "/") eqn:Er.
      + apply String.eqb_eq in Er. rewrite Er in E. discriminate.
      + unfold normalPath in Hd. rewrite E in Hd. rewrite Hd.
        now rewrite !append_assoc. }
  split_and!.
  - exact Hj.
  - rewrite Hj. destruct (String.eqb dir "/") eqn:Er.
    + apply String.eqb_eq in Er. rewrite Er. apply startsWith_append.
    + apply startsWith_append.
  - exact Hseg.
  - exists [name]. exact Hseg.
Qed.

End Segments.

(** * Names of one segment, and writing then reading *)

Section EndToEnd.

Context {G : Type} (randomUUID : G -> string * G) (cwd : string)
        (expressContentType : string -> string).

Implicit Types (w : World G) (m : gmap string Fs.node) (name dir : string).

Lemma resolved_store_normal uri dir :
  Path.isAbsolute cwd = true ->
  resolveResourceStorePath cwd uri = Ok dir -> normalPath dir.
Proof.
  intros Hc. unfold resolveResourceStorePath.
  destruct (negb (JS.truthy uri)); [discriminate|].
  destruct (JS.startsWith uri FILE_URI_PREFIX).
  - intros [= <-]. now apply resolve_normal.
  - destruct (JS.includes uri "://"); [discriminate|].
    intros [= <-]. now apply resolve_normal.
Qed.

(** Past the guard, the answer depends only on what the looked-up path
    names. *)
Lemma handle_after_guard dir delimiter contentType contentDisposition m rawFilename name :
  missing rawFilename = false -> firstOf rawFilename = Some name ->
  JS.startsWith (Path.join dir name) dir = true ->
  handle expressContentType dir delimiter contentType contentDisposition m rawFilename
  = match Fs.stat m (Path.join dir name) with
    | Some (Fs.File data) =>
        Response.send (Buffer data)
          (Response.setHeader "Content-Disposition"
             (dispositionHeader contentDisposition
                (ParsedName.filename (parseStoredName name delimiter)))
             (Response.setHeader "Content-Type"
                (applyContentType expressContentType contentType name)
                Response.fresh))
    | Some Fs.Dir =>
        Response.send (Text "Internal server error")
          (Response.withStatus 500 Response.fresh)
    | None =>
        Response.send (Text "File not found") (Response.withStatus 404 Response.fresh)
    end.
Proof.
  intros Hm Hf Hs. unfold handle, serve. rewrite Hm, Hf. cbn [joinChecked bind].
  rewrite Hs. cbn [negb default]. unfold Fs.existsSync, Fs.readFileSync.
  destruct (Fs.stat m (Path.join dir name)) as [[data|]|]; reflexivity.
Qed.

(** X1.  For a store directory obtained from the store location and a
    requested filename of one ordinary segment (no slash, not [.] or [..]),
    the path that is looked up is the store directory followed by that one
    segment, so it lies in the store; the request is never answered 403,
    and it is answered 200 exactly when a regular file is stored at that
    path, with the content of that file as body. *)
Theorem plain_name_stays_inside uri dir delimiter contentType contentDisposition m name :
  Path.isAbsolute cwd = true ->
  resolveResourceStorePath cwd uri = Ok dir ->
  plain name = true ->
  let res :=
    handle expressContentType dir delimiter contentType contentDisposition m
      (PString name) in
  segments (Path.join dir name) = segments dir ++ [name]
  /\ Path.within dir (Path.join dir name)
  /\ Response.status res <> 403
  /\ (Response.status res = 200
      <-> exists data, Fs.stat m (Path.join dir name) = Some (Fs.File data))
  /\ (forall data, Fs.stat m (Path.join dir name) = Some (Fs.File data) ->
                   Response.body res = Some (Buffer data)).
Proof.
  intros Hc Hres Hn res.
  pose proof (resolved_store_normal _ _ Hc Hres) as Hd.
  destruct (join_normal_plain dir name Hd Hn) as (_ & Hs & Hseg & Hw).
  assert (Hm : missing (PString name) = false)
    by (cbn; now rewrite (truthy_plain _ Hn)).
  assert (Hrun := handle_after_guard dir delimiter contentType contentDisposition m
                    (PString name) name Hm eq_refl Hs).
  fold res in Hrun.
  split_and!.
  - exact Hseg.
  - exact Hw.
  - rewrite Hrun. destruct (Fs.stat m _) as [[data|]|]; discriminate.
  - rewrite Hrun. destruct (Fs.stat m _) as [[data|]|].
    + split; [intros _; now exists data | reflexivity].
    + split; [discriminate | intros [data H]; discriminate].
    + split; [discriminate | intros [data H]; discriminate].
  - intros data Hst. rewrite Hrun, Hst. reflexivity.
Qed.

Lemma fs_writeFile_inv m p buffer m' :
  Fs.writeFile m p buffer = Ok m' ->
  m' = <[Fs.key p := Fs.File buffer]> m
  /\ JS.lastIs Path.slash p = false
  /\ String.eqb (Fs.key p) "/" = false
  /\ Fs.stat m (Path.dirname p) = Some Fs.Dir.
Proof.
  unfold Fs.writeFile. destruct (JS.lastIs Path.slash p) eqn:El; [discriminate|].
  assert (Hk : Fs.stat m p <> Some Fs.Dir -> String.eqb (Fs.key p) "/" = false).
  { unfold Fs.stat. destruct (String.eqb (Fs.key p) "/"); [congruence | reflexivity]. }
  destruct (Fs.stat m p) as [[data|]|] eqn:Es; try discriminate;
    (destruct (Fs.stat m (Path.dirname p)) as [[d|]|]; try discriminate;
     intros [= <-]; split_and!; try reflexivity; apply Hk; discriminate).
Qed.

Lemma writeFile_inv buffer originalFilename config w r w' :
  writeFile randomUUID cwd buffer originalFilename config w = (Ok r, w') ->
  exists w1,
    reserveFile randomUUID cwd originalFilename config w = (Ok r, w1)
    /\ Fs.writeFile (fs w1) (FileReservation.fullPath r) buffer = Ok (fs w')
    /\ gen w' = gen w1 /\ calls w' = calls w1.
Proof.
  unfold writeFile.
  destruct (reserveFile _ _ _ _ _) as [[r1|e] w1] eqn:Er; [|discriminate].
  destruct (Fs.writeFile _ _ _) as [m1|e] eqn:Ew; [|discriminate].
  intros [= <- <-]. exists w1. now rewrite Ew.
Qed.

Lemma writeFile_stat buffer originalFilename config w r w' :
  writeFile randomUUID cwd buffer originalFilename config w = (Ok r, w') ->
  Fs.stat (fs w') (FileReservation.fullPath r) = Some (Fs.File buffer).
Proof.
  intros H. apply writeFile_inv in H as (w1 & _ & Hw & _).
  apply fs_writeFile_inv in Hw as (Hfs & Hl & Hk & _).
  unfold Fs.stat. rewrite Hk, Hfs, lookup_insert_eq, Hl. reflexivity.
Qed.

(** X2.  After a successful [writeFile] the reserved path holds a regular
    file whose content is the buffer, and every other regular file on the
    disk is what it was before the call: none is added, removed or
    changed. *)
Theorem writeFile_stores buffer originalFilename config w r w' :
  writeFile randomUUID cwd buffer originalFilename config w = (Ok r, w') ->
  Fs.stat (fs w') (FileReservation.fullPath r) = Some (Fs.File buffer)
  /\ Fs.readFileSync (fs w') (FileReservation.fullPath r) = Ok buffer
  /\ (forall q data,
        q <> Fs.key (FileReservation.fullPath r) ->
        fs w' !! q = Some (Fs.File data) <-> fs w !! q = Some (Fs.File data)).
Proof.
  intros H. pose proof (writeFile_stat _ _ _ _ _ _ H) as Hst.
  apply writeFile_inv in H as (w1 & Hr & Hw & _).
  apply fs_writeFile_inv in Hw as (Hfs & Hl & Hk & _).
  split_and!.
  - exact Hst.
  - unfold Fs.readFileSync. now rewrite Hst.
  - intros q data Hq. rewrite Hfs, lookup_insert_ne by congruence.
    apply reserveFile_inv in Hr as (outputDir & m1 & _ & Hmk & Hgen & _).
    apply attempt_ok in Hgen as [Hfs1 _]. cbn [fs] in Hfs1. rewrite Hfs1.
    eapply mkdir_files, Hmk.
Qed.

(** X3.  Writing then retrieving: after a successful [writeFile] whose
    stored name is one ordinary segment, the router built from the same
    configuration answers a request for the stored name with status 200 and
    the written buffer as body; and when no ending of the identifier begins
    the delimiter, the filename of [Content-Disposition] is the
    percent-encoded original filename. *)
Theorem write_then_retrieve buffer originalFilename (config : FileServingConfig.t G)
        options w r w' :
  Path.isAbsolute cwd = true ->
  writeFile randomUUID cwd buffer originalFilename config w = (Ok r, w') ->
  plain (FileReservation.storedName r) = true ->
  exists handler,
    createFileServingRouter cwd expressContentType config options = Ok handler
    /\ Response.status (handler (fs w') (PString (FileReservation.storedName r))) = 200
    /\ Response.body (handler (fs w') (PString (FileReservation.storedName r)))
       = Some (Buffer buffer)
    /\ (~ overlaps (FileReservation.id r)
            (default DEFAULT_DELIMITER (FileServingConfig.delimiter config)) ->
        Response.headers (handler (fs w') (PString (FileReservation.storedName r)))
          !! "Content-Disposition"
        = Some (dispositionToString
                  (default attachment (FileServingRouterOptions.contentDisposition options))
                +:+ "; filename=" +:+ JS.quote
                +:+ JS.encodeURIComponent originalFilename +:+ JS.quote)).
Proof.
  intros Hc Hw Hn.
  pose proof (writeFile_stat _ _ _ _ _ _ Hw) as Hst.
  apply writeFile_inv in Hw as (w1 & Hr & _).
  apply reserveFile_inv in Hr as (outputDir & m1 & Hres & _ & Hgen & Hname & Hpath).
  apply attempt_ok in Hgen as [_ Hid]. apply includes_false_iff in Hid.
  rewrite Hpath in Hst.
  pose proof (resolved_store_normal _ _ Hc Hres) as Hd.
  destruct (join_normal_plain _ _ Hd Hn) as (_ & Hs & _).
  assert (Hm : missing (PString (FileReservation.storedName r)) = false)
    by (cbn; now rewrite (truthy_plain _ Hn)).
  eexists. split.
  { unfold createFileServingRouter. rewrite Hres. reflexivity. }
  rewrite (handle_after_guard _ _ _ _ _ _ _ Hm eq_refl Hs), Hst.
  split_and!.
  - reflexivity.
  - reflexivity.
  - intros Hov. cbn [Response.headers Response.send Response.setHeader].
    rewrite lookup_insert_eq. unfold dispositionHeader.
    rewrite Hname at 1.
    now rewrite (parse_at_boundary _ _ _ (search_glued _ _ _ 0 Hid Hov)).
Qed.

End EndToEnd.

(** * More on the codec, the generator and the answers *)

Section More.

Context {G : Type}.

Implicit Types (w : World G) (s d : string).

(** An occurrence is found no later than where it is. *)
Lemma search_le pre d post n :
  exists k, JS.search (pre +:+ d +:+ post) d n = Some k
            /\ (k <= n + String.length pre)%nat.
Proof.
  revert n; induction pre as [|a pre IH]; intros n; rewrite search_eq.
  - simpl. rewrite startsWith_append. exists n. split; [reflexivity | lia].
  - destruct (JS.startsWith _ d).
    + exists n. split; [reflexivity | lia].
    + simpl. destruct (IH (S n)) as (k & Hk & Hle). exists k. split; [exact Hk | lia].
Qed.

(** X4.  Decoding then encoding: when the delimiter occurs in a stored
    name, the identifier and filename returned by [parseStoredName], put
    together again by [formatStoredName], give the stored name back; and the
    identifier does not contain the delimiter, provided the delimiter is not
    empty. *)
Theorem format_parse_inverse storedName delimiter :
  occurs delimiter storedName ->
  let parsed := parseStoredName storedName delimiter in
  formatStoredName (ParsedName.id parsed) (ParsedName.filename parsed) delimiter
  = storedName
  /\ (delimiter <> EmptyString -> ~ occurs delimiter (ParsedName.id parsed)).
Proof.
  intros Hocc parsed.
  destruct (JS.search storedName delimiter 0) as [k|] eqn:Es;
    [|now apply search_absent in Es].
  destruct (search_found _ _ _ _ Es) as (pre & post & Hs & Hk). simpl in Hk. subst k.
  assert (Hp : parsed = {| ParsedName.id := pre; ParsedName.filename := post |}).
  { unfold parsed. rewrite Hs. apply (parse_at_boundary pre post delimiter).
    now rewrite <- Hs. }
  rewrite Hp. cbn [ParsedName.id ParsedName.filename]. split.
  - unfold formatStoredName. now rewrite Hs.
  - intros Hne (a & b & Hpre).
    destruct (search_le a delimiter (b +:+ delimiter +:+ post) 0) as (k & Hk & Hle).
    assert (Heq : a +:+ delimiter +:+ b +:+ delimiter +:+ post = storedName).
    { rewrite Hs, Hpre. now rewrite !append_assoc. }
    rewrite Heq, Es in Hk. injection Hk as <-.
    rewrite Hpre, !length_append in Hle.
    destruct delimiter; [congruence | simpl in Hle; lia].
Qed.

Lemma nthValue_succ (generateIdFn : G -> string * G) g j :
  nthValue generateIdFn g (S j) = nthValue generateIdFn (snd (generateIdFn g)) j.
Proof. unfold nthValue. now rewrite advance_succ. Qed.

Lemma nthValue_0 (generateIdFn : G -> string * G) g :
  nthValue generateIdFn g 0 = fst (generateIdFn g).
Proof. reflexivity. Qed.

Lemma advance_1 (generateIdFn : G -> string * G) g :
  advance generateIdFn 1 g = snd (generateIdFn g).
Proof. reflexivity. Qed.

Lemma attempt_first (generateIdFn : G -> string * G) delimiter k :
  forall n w,
    (k < n)%nat ->
    (forall j, (j < k)%nat ->
               JS.includes (nthValue generateIdFn (gen w) j) delimiter = true) ->
    JS.includes (nthValue generateIdFn (gen w) k) delimiter = false ->
    attempt n delimiter generateIdFn w
    = (Ok (nthValue generateIdFn (gen w) k),
       {| fs := fs w; gen := advance generateIdFn (S k) (gen w);
          calls := (calls w + S k)%nat |}).
Proof.
  induction k as [|k IH]; intros n w Hn Hrej Hacc;
    (destruct n as [|n]; [lia|]); cbn [attempt]; unfold invoke.
  - rewrite nthValue_0 in Hacc |- *. rewrite advance_1.
    destruct (generateIdFn (gen w)) as [v g] eqn:E. cbn [fst snd] in *.
    rewrite Hacc. cbn [negb]. now rewrite Nat.add_1_r.
  - pose proof (Hrej 0%nat ltac:(lia)) as H0. rewrite nthValue_0 in H0.
    rewrite (nthValue_succ generateIdFn (gen w) k) in Hacc |- *.
    rewrite (advance_succ generateIdFn (S k)).
    destruct (generateIdFn (gen w)) as [v g] eqn:E. cbn [fst snd] in *.
    rewrite H0. cbn [negb].
    rewrite (IH n {| fs := fs w; gen := g; calls := S (calls w) |}); cbn [gen fs calls].
    + now replace (S (calls w) + S k)%nat with (calls w + S (S k))%nat by lia.
    + lia.
    + intros j Hj. specialize (Hrej (S j) ltac:(lia)).
      now rewrite nthValue_succ, E in Hrej.
    + exact Hacc.
Qed.

(** X5.  When the first value of the generator that is free of the
    delimiter is its value number [k], with [k] below 100,
    [generateValidatedId] returns that value after exactly [k + 1] calls of
    the generator, and leaves the file system as it was. *)
Theorem generation_first_accepted delimiter (generateIdFn : G -> string * G) w k :
  (k < 100)%nat ->
  (forall j, (j < k)%nat -> occurs delimiter (nthValue generateIdFn (gen w) j)) ->
  ~ occurs delimiter (nthValue generateIdFn (gen w) k) ->
  exists w',
    generateValidatedId delimiter generateIdFn w
    = (Ok (nthValue generateIdFn (gen w) k), w')
    /\ calls w' = (calls w + (k + 1))%nat
    /\ gen w' = advance generateIdFn (k + 1) (gen w)
    /\ fs w' = fs w.
Proof.
  intros Hk Hrej Hacc. eexists. split.
  - unfold generateValidatedId, maxAttempts. apply attempt_first.
    + exact Hk.
    + intros j Hj. apply includes_spec. now apply Hrej.
    + now apply includes_false_iff.
  - cbn [calls gen fs]. rewrite Nat.add_1_r. now split_and!.
Qed.

(** X6.  Every request is answered, and in one of five ways: one of the
    four fixed text answers 400, 403, 404 and 500, which carry no header
    and none of the error's detail, or status 200 with a buffer as body. *)
Theorem every_request_answered (expressContentType : string -> string)
        dir delimiter contentType contentDisposition
        (m : gmap string Fs.node) rawFilename :
  let res :=
    handle expressContentType dir delimiter contentType contentDisposition m rawFilename in
  res = errorResponse 400 "Bad request: filename parameter is required"
  \/ res = errorResponse 403 "Access denied"
  \/ res = errorResponse 404 "File not found"
  \/ res = errorResponse 500 "Internal server error"
  \/ (Response.status res = 200 /\ exists data, Response.body res = Some (Buffer data)).
Proof.
  intros res. unfold res, handle, serve.
  destruct (missing rawFilename); [now left|].
  destruct (firstOf rawFilename) as [name|]; cbn [joinChecked bind];
    [|now do 3 right; left].
  destruct (JS.startsWith _ dir); cbn [negb]; [|now right; left].
  unfold Fs.existsSync, Fs.readFileSync.
  destruct (Fs.stat m _) as [[data|]|]; cbn [negb bind].
  - do 4 right. split; [reflexivity | now exists data].
  - now do 3 right; left.
  - now do 2 right; left.
Qed.

End More.

(** * Resolved paths are fixed points *)

Section Stable.

Context {G : Type} (randomUUID : G -> string * G) (cwd : string)
        (numberText : JS.number -> string).

Implicit Types (p dir name : string) (M : list string).

Lemma normal_of_plain M :
  Forall (fun x => plain x = true) M -> normalPath ("/" +:+ Path.unsplit M).
Proof. intros H. unfold normalPath. now rewrite (segments_root M H). Qed.

Lemma join_is_normal dir name :
  normalPath dir -> plain name = true -> normalPath (Path.join dir name).
Proof.
  intros Hd Hn.
  assert (Ha : Path.isAbsolute dir = true) by (rewrite Hd; apply startsWith_append).
  rewrite (join_plain _ _ Ha Hn). apply normal_of_plain.
  apply Forall_app. split; [apply segments_plain | now repeat constructor].
Qed.

Lemma normalizeSegments_trailing allowAboveRoot (xs : list string) :
  Path.normalizeSegments allowAboveRoot (xs ++ [EmptyString])
  = Path.normalizeSegments allowAboveRoot xs.
Proof. unfold Path.normalizeSegments. now rewrite fold_left_app. Qed.

(** Resolving a path in normal form gives the same path. *)
Lemma resolve_fixed p : normalPath p -> Path.resolve cwd p = p.
Proof.
  intros Hp.
  assert (Ha : Path.isAbsolute p = true) by (rewrite Hp; apply startsWith_append).
  unfold Path.resolve. rewrite (absolute_truthy _ Ha), Ha. cbn [andb orb negb].
  unfold Path.normalizeString.
  replace (p +:+ "/") with (p +:+ "/" +:+ EmptyString) by reflexivity.
  rewrite split_glue. change (Path.split EmptyString) with [EmptyString].
  rewrite normalizeSegments_trailing. fold (segments p). now rewrite <- Hp.
Qed.

(** A path in normal form has no two slashes in a row. *)
Lemma normal_no_double_slash p : normalPath p -> ~ occurs "//" p.
Proof.
  intros Hp (pre & post & Hocc).
  pose proof (segments_plain p) as Hplain. unfold normalPath in Hp.
  destruct (segments p) as [|x M] eqn:E.
  - rewrite Hp in Hocc. cbn in Hocc.
    destruct pre as [|a pre]; [discriminate|].
    simpl in Hocc. injection Hocc as _ Hocc. destruct pre; discriminate.
  - assert (Hsplit : Path.split p = EmptyString :: x :: M).
    { rewrite Hp.
      change (Path.split ("/" +:+ Path.unsplit (x :: M)))
        with (EmptyString :: Path.split (Path.unsplit (x :: M))).
      rewrite split_unsplit by (discriminate || now apply plain_no_slash).
      reflexivity. }
    rewrite Hocc in Hsplit.
    change (pre +:+ "//" +:+ post) with (pre +:+ "/" +:+ ("/" +:+ post)) in Hsplit.
    rewrite split_glue in Hsplit.
    change (Path.split ("/" +:+ post)) with (EmptyString :: Path.split post) in Hsplit.
    destruct (Path.split pre) as [|y ys] eqn:Ep; [now apply split_nonempty in Ep|].
    injection Hsplit as _ Hsplit.
    assert (Hin : In EmptyString (x :: M)).
    { rewrite <- Hsplit. apply in_or_app. right. now left. }
    rewrite Forall_forall in Hplain. apply list_elem_of_In, Hplain in Hin.
    discriminate.
Qed.

(** X7.  The directory returned for a store location resolves to itself,
    whether it is given back as a bare path or behind [file://]: resolving
    twice is resolving once. *)
Theorem resolved_store_is_fixed uri dir :
  Path.isAbsolute cwd = true ->
  resolveResourceStorePath cwd uri = Ok dir ->
  resolveResourceStorePath cwd dir = Ok dir
  /\ resolveResourceStorePath cwd ("file://" +:+ dir) = Ok dir.
Proof.
  intros Hc Hres. pose proof (resolved_store_normal cwd uri dir Hc Hres) as Hd.
  assert (Ha : Path.isAbsolute dir = true) by (rewrite Hd; apply startsWith_append).
  split.
  - unfold resolveResourceStorePath. rewrite (absolute_truthy _ Ha). cbn [negb].
    assert (Hp : JS.startsWith dir FILE_URI_PREFIX = false).
    { destruct dir as [|a d]; [discriminate|]. unfold Path.isAbsolute in Ha.
      simpl in Ha |- *. destruct (Ascii.eqb_spec a "/") as [->|]; [reflexivity | discriminate]. }
    assert (Hi : JS.includes dir "://" = false).
    { apply includes_false_iff. intros (pre & post & Hocc).
      apply (normal_no_double_slash dir Hd). exists (pre +:+ ":"), post.
      rewrite Hocc. now rewrite !append_assoc. }
    rewrite Hp, Hi. f_equal. now apply resolve_fixed.
  - unfold resolveResourceStorePath.
    change ("file://" +:+ dir) with (FILE_URI_PREFIX +:+ dir).
    rewrite startsWith_append, slice_prefix. cbn. f_equal. now apply resolve_fixed.
Qed.

(** X8.  Reserving then publishing over stdio: for a reservation whose
    stored name is one ordinary segment, the URI that [getFileUri] returns
    for the stored name, with no transport or the stdio transport and the
    same store location, is [file://] followed by the reservation's full
    path. *)
Theorem stdio_uri_is_reserved_path originalFilename (config : FileServingConfig.t G)
        (w : World G) r w' transport uriConfig :
  Path.isAbsolute cwd = true ->
  reserveFile randomUUID cwd originalFilename config w = (Ok r, w') ->
  plain (FileReservation.storedName r) = true ->
  FileUriConfig.resourceStoreUri uriConfig = FileServingConfig.resourceStoreUri config ->
  transport = None
  \/ (exists port, transport = Some {| TransportConfig.type := stdio;
                                       TransportConfig.port := port |}) ->
  getFileUri cwd numberText (FileReservation.storedName r) transport uriConfig
  = Ok ("file://" +:+ FileReservation.fullPath r).
Proof.
  intros Hc Hr Hn Huri Ht.
  apply reserveFile_inv in Hr as (outputDir & m1 & Hres & _ & _ & _ & Hpath).
  pose proof (resolved_store_normal cwd _ _ Hc Hres) as Hd.
  assert (Hgo : getFileUri cwd numberText (FileReservation.storedName r) transport uriConfig
                = Ok (FILE_URI_PREFIX
                      +:+ Path.resolve cwd
                            (Path.join outputDir (FileReservation.storedName r)))).
  { destruct Ht as [->|[port ->]]; unfold getFileUri; now rewrite Huri, Hres. }
  rewrite Hgo, Hpath. f_equal. f_equal.
  apply resolve_fixed. now apply join_is_normal.
Qed.

End Stable.

(** * Middleware and registration *)

Section Modules.

Import Composer.

Lemma through_cons {A L : Type} (pick : L -> option (Wrapper A)) layer layers (x : A) :
  through pick (layer :: layers) x
  = through pick layers (match pick layer with Some f => f x 0%nat [] | None => x end).
Proof. reflexivity. Qed.

Lemma length_mapWith {A : Type} (wrapper : option (Wrapper A)) (xs : list A) :
  length (mapWith wrapper xs) = length xs.
Proof. destruct wrapper as [f|]; [apply length_imap | reflexivity]. Qed.

Lemma imap_map {A B : Type} (g : nat -> A -> B) (h : A -> B) (xs : list A) :
  (forall index x, g index x = h x) -> imap g xs = map h xs.
Proof.
  revert g. induction xs as [|x xs IH]; intros g H; [reflexivity|].
  cbn [imap map]. rewrite H. f_equal. apply IH. intros index y. apply H.
Qed.

Lemma mapWith_blind {A : Type} (wrapper : option (Wrapper A)) (xs : list A) :
  positionBlind wrapper ->
  mapWith wrapper xs
  = map (fun x => match wrapper with Some f => f x 0%nat [] | None => x end) xs.
Proof.
  intros Hb. destruct wrapper as [f|]; cbn [mapWith].
  - unfold arrayMap. apply imap_map. intros index x. apply Hb.
  - symmetry. apply map_id.
Qed.

Lemma map_through {A L : Type} (pick : L -> option (Wrapper A)) layer layers (xs : list A) :
  positionBlind (pick layer) ->
  map (through pick layers) (mapWith (pick layer) xs)
  = map (through pick (layer :: layers)) xs.
Proof.
  intros Hb. rewrite mapWith_blind by assumption. rewrite map_map.
  apply map_ext. intros x. now rewrite through_cons.
Qed.

Lemma composeMiddleware_lengths {T R P : Type} (layers : list (MiddlewareLayer T R P))
      (modules : ModuleCollections T R P) :
  length (tools (composeMiddleware modules layers)) = length (tools modules)
  /\ length (resources (composeMiddleware modules layers)) = length (resources modules)
  /\ length (prompts (composeMiddleware modules layers)) = length (prompts modules).
Proof.
  unfold composeMiddleware. revert modules.
  induction layers as [|layer layers IH]; intros modules; [done|].
  cbn [fold_left]. destruct (IH (applyLayer modules layer)) as (Ht & Hr & Hp).
  rewrite Ht, Hr, Hp. unfold applyLayer. cbn [tools resources prompts].
  now rewrite !length_mapWith.
Qed.

(** X9.  [composeMiddleware] keeps the three collections at their lengths,
    whatever the wrappers do.  When the wrappers of the layers look at the
    module only (not at the index and the array that [map] passes along),
    it treats every module on its own: each tool, resource and prompt of
    the result is the module at the same place of the input, passed through
    the wrappers the layers define for its kind in the order of the layers,
    a layer without wrapper for that kind leaving it as it is. *)
Theorem composeMiddleware_pointwise {T R P : Type} (modules : ModuleCollections T R P)
        (layers : list (MiddlewareLayer T R P)) :
  (length (tools (composeMiddleware modules layers)) = length (tools modules)
   /\ length (resources (composeMiddleware modules layers)) = length (resources modules)
   /\ length (prompts (composeMiddleware modules layers)) = length (prompts modules))
  /\ (Forall positionBlindLayer layers ->
      composeMiddleware modules layers
      = {| tools := map (through withTool layers) (tools modules);
           resources := map (through withResource layers) (resources modules);
           prompts := map (through withPrompt layers) (prompts modules) |}).
Proof.
  split; [apply composeMiddleware_lengths|].
  unfold composeMiddleware. revert modules.
  induction layers as [|layer layers IH]; intros modules Hb.
  - destruct modules as [ts rs ps]. cbn [fold_left tools resources prompts].
    f_equal; symmetry; (etransitivity; [|apply map_id]); apply map_ext; reflexivity.
  - apply Forall_cons in Hb as [(Ht & Hr & Hp) Hb].
    cbn [fold_left]. rewrite IH by assumption.
    unfold applyLayer. cbn [tools resources prompts].
    now rewrite !map_through by assumption.
Qed.

Import Register.

(** X10.  [registerResources] is not all-or-nothing: when the resources
    before the first one without template are accepted by the server, they
    stay registered, the call throws the error naming that resource, and
    none of the resources after it is looked at. *)
Theorem registerResources_stops_at_missing_template
        {S Tm ResC ResH : Type}
        (registerResource : string -> Tm -> ResC -> ResH -> S -> result unit * S)
        (emptyConfig : ResC) (server server' : S)
        (before after : list (ResourceModule Tm ResC ResH)) resource :
  registerResources registerResource emptyConfig server before = (Ok tt, server') ->
  template resource = None ->
  registerResources registerResource emptyConfig server (before ++ resource :: after)
  = (Throw (Error ("Resource " +:+ JS.quote +:+ name resource +:+ JS.quote
                   +:+ " must have a template")), server').
Proof.
  intros Hb Ht. revert server Hb.
  induction before as [|r before IH]; intros server Hb.
  - injection Hb as <-. cbn. now rewrite Ht.
  - cbn [app registerResources] in Hb |- *.
    destruct (template r) as [tm|]; [|discriminate].
    destruct (registerResource _ _ _ _ _) as [[u|e] s1]; [|discriminate].
    now apply IH.
Qed.

(** X11.  [registerTools] registers in the order of the list and stops at
    the first refusal: when the server accepts the tools before one that it
    refuses, these stay registered, the refusal is what the call throws,
    and none of the tools after it is registered. *)
Theorem registerTools_stops_at_refusal
        {S ToolC ToolH : Type}
        (registerTool : string -> ToolC -> ToolH -> S -> result unit * S)
        (server server1 server2 : S)
        (before after : list (ToolModule ToolC ToolH)) tool e :
  registerTools registerTool server before = (Ok tt, server1) ->
  registerTool (toolName tool) (toolConfig tool) (toolHandler tool) server1
  = (Throw e, server2) ->
  registerTools registerTool server (before ++ tool :: after) = (Throw e, server2).
Proof.
  intros Hb Ht. revert server Hb.
  induction before as [|t before IH]; intros server Hb.
  - injection Hb as <-. cbn. now rewrite Ht.
  - cbn [app registerTools] in Hb |- *.
    destruct (registerTool (toolName t) _ _ _) as [[u|e1] s1]; [|discriminate].
    now apply IH.
Qed.

End Modules.

(** * Field selection, columnar output and transport selection *)

Section Selection.

Import Schemas.

Implicit Types (x f : string) (xs set availableFields : list string).

Lemma includes_elem xs x : includes xs x = true <-> x ∈ xs.
Proof.
  unfold includes. rewrite existsb_exists. split.
  - intros (y & Hy & ->%String.eqb_eq). now apply list_elem_of_In.
  - intros H. exists x. split; [now apply list_elem_of_In | apply String.eqb_refl].
Qed.

Lemma add_elem x y set : y ∈ add x set <-> y = x \/ y ∈ set.
Proof.
  unfold add. destruct (includes set x) eqn:E.
  - apply includes_elem in E. split; [now right | intros [->|H]; assumption].
  - rewrite elem_of_app, list_elem_of_singleton. tauto.
Qed.

Lemma add_NoDup x set : NoDup set -> NoDup (add x set).
Proof.
  intros H. unfold add. destruct (includes set x) eqn:E; [assumption|].
  apply NoDup_app. split_and!; [assumption | | apply NoDup_singleton].
  intros y Hy ->%list_elem_of_singleton.
  apply includes_elem in Hy. congruence.
Qed.

Lemma newSet_spec xs :
  NoDup (newSet xs) /\ forall x, x ∈ newSet xs <-> x ∈ xs.
Proof.
  unfold newSet.
  assert (H : forall acc, NoDup acc ->
              NoDup (fold_left (fun set x => add x set) xs acc)
              /\ forall x, x ∈ fold_left (fun set x => add x set) xs acc
                            <-> x ∈ acc \/ x ∈ xs).
  { induction xs as [|y xs IH]; intros acc Hacc; cbn [fold_left].
    - split; [assumption|]. intros x. rewrite elem_of_nil. tauto.
    - destruct (IH (add y acc) (add_NoDup _ _ Hacc)) as [Hn He].
      split; [assumption|]. intros x. rewrite He, add_elem, elem_of_cons. tauto. }
  destruct (H [] (NoDup_nil_2)) as [Hn He]. split; [assumption|].
  intros x. rewrite He, elem_of_nil. tauto.
Qed.

(** The set built by [parseFields] before its size is tested. *)
Lemma parseFields_unfold fieldsStr availableFields :
  fieldsStr <> EmptyString ->
  parseFields (Some fieldsStr) availableFields
  = let valid := newSet (filter (includes availableFields) (requestedFields fieldsStr)) in
    let valid := if includes availableFields "id" then add "id" valid else valid in
    if (0 <? length valid)%nat then Only valid else All.
Proof. intros H. unfold parseFields. destruct fieldsStr; [congruence | reflexivity]. Qed.

Lemma valid_elem availableFields fieldsStr f :
  f ∈ (if includes availableFields "id"
        then add "id" (newSet (filter (includes availableFields)
                                      (requestedFields fieldsStr)))
        else newSet (filter (includes availableFields) (requestedFields fieldsStr)))
  <-> f ∈ availableFields /\ (f = "id" \/ f ∈ requestedFields fieldsStr).
Proof.
  destruct (newSet_spec (filter (includes availableFields) (requestedFields fieldsStr)))
    as [_ He].
  assert (Hf : forall y, y ∈ filter (includes availableFields) (requestedFields fieldsStr)
                         <-> y ∈ availableFields /\ y ∈ requestedFields fieldsStr).
  { intros y. rewrite list_elem_of_filter, Is_true_true, includes_elem. tauto. }
  destruct (includes availableFields "id") eqn:Eid.
  - apply includes_elem in Eid. rewrite add_elem, He, Hf.
    split; [intros [->|[? ?]]; tauto | tauto].
  - rewrite He, Hf. split; [tauto|]. intros [Ha [->|Hr]]; [|tauto].
    apply includes_elem in Ha. congruence.
Qed.

(** X12.  A set returned by [parseFields] is never empty, holds no field
    twice, and holds exactly the available fields that are [id] or one of
    the requested parts (the pieces between commas, trimmed): unknown
    fields are dropped and [id] is added whenever it is available. *)
Theorem parseFields_set fieldsStr availableFields set :
  parseFields fieldsStr availableFields = Only set ->
  exists s,
    fieldsStr = Some s /\ s <> EmptyString
    /\ set <> [] /\ NoDup set
    /\ forall f, f ∈ set <-> f ∈ availableFields /\ (f = "id" \/ f ∈ requestedFields s).
Proof.
  destruct fieldsStr as [s|]; [|discriminate].
  destruct (String.eqb_spec s EmptyString) as [->|Hne]; [discriminate|].
  rewrite (parseFields_unfold _ _ Hne). cbv zeta.
  destruct (0 <? length _)%nat eqn:El; [|discriminate].
  intros [= <-]. exists s. split_and!; try done.
  - apply Nat.ltb_lt in El. intros H0. rewrite H0 in El. simpl in El. lia.
  - destruct (newSet_spec (filter (includes availableFields) (requestedFields s)))
      as [Hn _].
    destruct (includes availableFields "id"); [now apply add_NoDup | assumption].
  - intros f. apply valid_elem.
Qed.

(** X13.  [parseFields] answers ['all'] in exactly two cases: nothing was
    asked (no string, or the empty one), or [id] is not an available field
    and none of the requested parts is.  In particular a request made only
    of unknown fields gives the set holding [id] alone when [id] is
    available, and ['all'] when it is not. *)
Theorem parseFields_all fieldsStr availableFields :
  parseFields fieldsStr availableFields = All
  <-> fieldsStr = None \/ fieldsStr = Some EmptyString
      \/ exists s, fieldsStr = Some s
                   /\ ("id" ∉ availableFields)
                   /\ forall f, f ∈ requestedFields s -> f ∉ availableFields.
Proof.
  destruct fieldsStr as [s|]; [|split; [now left | reflexivity]].
  destruct (String.eqb_spec s EmptyString) as [->|Hne];
    [split; [now right; left | reflexivity]|].
  rewrite (parseFields_unfold _ _ Hne). cbv zeta.
  pose proof (valid_elem availableFields s) as He.
  destruct (0 <? length _)%nat eqn:El.
  - split; [discriminate|]. intros [H|[H|(s' & Hs & Hid & Hnone)]]; try congruence.
    injection Hs as <-. exfalso.
    apply Nat.ltb_lt in El.
    destruct (if includes availableFields "id" then _ else _) as [|f l] eqn:Ev;
      [simpl in El; lia|].
    destruct (proj1 (He f) ltac:(now left)) as [Ha [->|Hr]]; [now apply Hid|].
    now apply (Hnone f).
  - split; [|reflexivity]. intros _. right; right. exists s.
    apply Nat.ltb_ge in El.
    destruct (if includes availableFields "id" then _ else _) as [|f l] eqn:Ev;
      [|simpl in El; lia].
    split_and!; [reflexivity| |].
    + intros Hid. apply (elem_of_nil "id"), He. tauto.
    + intros f Hr Ha. apply (elem_of_nil f), He. tauto.
Qed.

(** X14.  The columnar output is a rectangle in the order of the
    available fields: there is one row per item, every row has one cell per
    column, the columns are the available fields (for ['all']) or those of
    them that the set holds, in the order of the available fields whatever
    the order of the set, and the cell of an item under a column is what
    reading that property of the item gives, with [null] in place of
    [undefined]; no cell is [undefined]. *)
Theorem toColumnarFormat_rectangle {V : Type} (items : list (string -> Cell V))
        fields availableFields :
  let out := toColumnarFormat items fields availableFields in
  length (rows out) = length items
  /\ Forall (fun row => length row = length (columns out)) (rows out)
  /\ columns out = match fields with
                   | All => availableFields
                   | Only set => filter (fun f => f ∈ set) availableFields
                   end
  /\ sublist (columns out) availableFields
  /\ (forall i j item col,
         items !! i = Some item -> columns out !! j = Some col ->
         exists row, rows out !! i = Some row /\ row !! j = Some (orNull (item col)))
  /\ Forall (Forall (fun cell => cell <> Undefined)) (rows out).
Proof.
  intros out. unfold out, toColumnarFormat. cbn [rows columns].
  set (cols := match fields with
               | All => availableFields
               | Only set => filter (includes set) availableFields
               end).
  split_and!.
  - apply length_map.
  - apply Forall_map, Forall_forall. intros item _. cbn. apply length_map.
  - unfold cols. destruct fields as [|set]; [reflexivity|].
    apply list_filter_iff. intros x. rewrite Is_true_true. apply includes_elem.
  - unfold cols. destruct fields as [|set]; [reflexivity|]. apply sublist_filter.
  - intros i j item col Hi Hj. eexists. split.
    + rewrite list_lookup_fmap, Hi. reflexivity.
    + cbn. now rewrite list_lookup_fmap, Hj.
  - apply Forall_map, Forall_forall. intros item _. cbn.
    apply Forall_map, Forall_forall. intros col _. cbn.
    destruct (item col); discriminate.
Qed.

End Selection.

(** * The transport chosen from the command line *)

Section Transport.

Import ParseConfig.

Context (Number : string -> JS.number) (cwd : string)
        (numberText : JS.number -> string).


End Transport.

(** * What a reservation leaves behind, and where it lands *)

Section Landing.

Context {G : Type} (randomUUID : G -> string * G) (cwd : string).

Implicit Types (w : World G).

Lemma attempt_bounds n delimiter (generateIdFn : G -> string * G) w o w' :
  attempt n delimiter generateIdFn w = (o, w') ->
  fs w' = fs w /\ (calls w <= calls w')%nat /\ (calls w' <= calls w + n)%nat.
Proof.
  revert w; induction n as [|n IH]; intros w; cbn [attempt].
  - intros [= <- <-]. split_and!; [reflexivity | lia | lia].
  - unfold invoke. destruct (generateIdFn (gen w)) as [v g].
    destruct (negb (JS.includes v delimiter)).
    + intros [= <- <-]. cbn. split_and!; [reflexivity | lia | lia].
    + intros H. apply IH in H as (Hfs & Hlo & Hhi). cbn in *.
      split_and!; [assumption | lia | lia].
Qed.

(** X16.  Whatever its outcome, [reserveFile] adds, removes or changes no
    regular file; it calls the generator at most 100 times, and only once
    the store location has resolved and its directory is in place: a call
    that fails earlier leaves the world as it was. *)
Theorem reserveFile_keeps_files originalFilename config w o w' :
  reserveFile randomUUID cwd originalFilename config w = (o, w') ->
  (forall q data, fs w' !! q = Some (Fs.File data) <-> fs w !! q = Some (Fs.File data))
  /\ (calls w <= calls w' <= calls w + 100)%nat
  /\ ((exists dir,
          resolveResourceStorePath cwd (FileServingConfig.resourceStoreUri config) = Ok dir
          /\ Fs.mkdir (fs w) dir = Ok (fs w'))
      \/ w' = w /\ exists e, o = Throw e).
Proof.
  unfold reserveFile.
  destruct (resolveResourceStorePath _ _) as [dir|e] eqn:Er.
  2:{ intros [= <- <-]. split_and!; [reflexivity | lia | lia | right; eauto]. }
  destruct (Fs.mkdir _ _) as [m|e] eqn:Em.
  2:{ intros [= <- <-]. split_and!; [reflexivity | lia | lia | right; eauto]. }
  destruct (generateValidatedId _ _ _) as [oid w1] eqn:Eg.
  unfold generateValidatedId, maxAttempts in Eg.
  apply attempt_bounds in Eg as (Hfs & Hlo & Hhi). cbn [fs calls] in *.
  intros H.
  assert (Hw : w' = w1) by (destruct oid; now injection H). subst w1.
  split_and!.
  - intros q data. rewrite Hfs. eapply mkdir_files, Em.
  - lia.
  - lia.
  - left. exists dir. now rewrite Hfs.
Qed.

(** X17.  A reservation whose stored name is one ordinary segment lands
    directly in the store: its full path is the resolved store directory, a
    slash (unless the store is the root) and the stored name, so its
    segments are those of the store followed by the stored name. *)
Theorem reservation_lands_in_store originalFilename config w r w' :
  Path.isAbsolute cwd = true ->
  reserveFile randomUUID cwd originalFilename config w = (Ok r, w') ->
  plain (FileReservation.storedName r) = true ->
  exists dir,
    resolveResourceStorePath cwd (FileServingConfig.resourceStoreUri config) = Ok dir
    /\ FileReservation.fullPath r
       = (if String.eqb dir "/" then "/" +:+ FileReservation.storedName r
          else dir +:+ "/" +:+ FileReservation.storedName r)
    /\ segments (FileReservation.fullPath r)
       = segments dir ++ [FileReservation.storedName r]
    /\ Path.within dir (FileReservation.fullPath r).
Proof.
  intros Hc Hr Hn.
  apply reserveFile_inv in Hr as (dir & m1 & Hres & _ & _ & _ & Hpath).
  pose proof (resolved_store_normal cwd _ _ Hc Hres) as Hd.
  destruct (join_normal_plain _ _ Hd Hn) as (Hj & _ & Hseg & Hw).
  exists dir. rewrite Hpath. now split_and!.
Qed.

End Landing.

(** * The encoded filename *)

Section Encoded.

Lemma encodeUnit_chars a :
  forallb inertChar (list_ascii_of_string (JS.encodeUnit a)) = true.
Proof. destruct a as [[] [] [] [] [] [] [] []]; vm_compute; reflexivity. Qed.

Lemma list_ascii_append s1 s2 :
  list_ascii_of_string (s1 +:+ s2) = list_ascii_of_string s1 ++ list_ascii_of_string s2.
Proof. induction s1 as [|a s1 IH]; [reflexivity|]. simpl. now rewrite IH. Qed.

Lemma encode_chars s :
  forallb inertChar (list_ascii_of_string (JS.encodeURIComponent s)) = true.
Proof.
  induction s as [|a s IH]; [reflexivity|].
  cbn [JS.encodeURIComponent]. rewrite list_ascii_append, forallb_app.
  now rewrite encodeUnit_chars, IH.
Qed.

Lemma occurs_char c s :
  occurs (String c EmptyString) s -> In c (list_ascii_of_string s).
Proof.
  intros (pre & post & ->). rewrite list_ascii_append. apply in_or_app. right. now left.
Qed.

(** X18.  The filename written into [Content-Disposition] cannot leave
    its quotes or its header: whatever the original filename, its encoding
    is made of letters, digits, the marks [- _ . ! ~ * ' ( )] and percent
    signs only, so it contains no double quote, no semicolon, no backslash,
    no carriage return and no line feed. *)
Theorem encoded_filename_is_inert contentDisposition originalFilename :
  dispositionHeader contentDisposition originalFilename
  = dispositionToString contentDisposition +:+ "; filename=" +:+ JS.quote
    +:+ JS.encodeURIComponent originalFilename +:+ JS.quote
  /\ Forall (fun c => inertChar c = true)
            (list_ascii_of_string (JS.encodeURIComponent originalFilename))
  /\ ~ occurs JS.quote (JS.encodeURIComponent originalFilename)
  /\ ~ occurs ";" (JS.encodeURIComponent originalFilename)
  /\ ~ occurs (String (ascii_of_N 92) EmptyString) (JS.encodeURIComponent originalFilename)
  /\ ~ occurs (String (ascii_of_N 13) EmptyString) (JS.encodeURIComponent originalFilename)
  /\ ~ occurs (String (ascii_of_N 10) EmptyString) (JS.encodeURIComponent originalFilename).
Proof.
  pose proof (encode_chars originalFilename) as H. rewrite forallb_forall in H.
  assert (Hno : forall c,
             inertChar c = false ->
             ~ occurs (String c EmptyString) (JS.encodeURIComponent originalFilename)).
  { intros c Hc Ho%occurs_char. apply H in Ho. congruence. }
  split_and!; [reflexivity | | apply Hno; reflexivity ..].
  apply Forall_forall. intros c Hc. now apply H, list_elem_of_In.
Qed.

End Encoded.

(** * The further properties at concrete inputs *)

Lemma plain_name_stays_inside_witness :
  let name := "0000-1~a b.txt" in
  Path.isAbsolute "/home/app" = true
  /\ resolveResourceStorePath "/home/app" "file:///tmp/files" = Ok "/tmp/files"
  /\ plain name = true
  /\ Path.within "/tmp/files" (Path.join "/tmp/files" name)
  /\ Response.status
       (handle Demo.mediaType "/tmp/files" "~" (inl "text/plain") attachment Demo.disk
          (PString name)) = 200.
Proof.
  intros name.
  assert (H1 : Path.isAbsolute "/home/app" = true) by reflexivity.
  assert (H2 : resolveResourceStorePath "/home/app" "file:///tmp/files" = Ok "/tmp/files")
    by reflexivity.
  assert (H3 : plain name = true) by reflexivity.
  destruct (plain_name_stays_inside "/home/app" Demo.mediaType "file:///tmp/files"
              "/tmp/files" "~" (inl "text/plain") attachment Demo.disk name H1 H2 H3)
    as (_ & Hw & _ & H200 & _).
  split_and!; try assumption.
  apply H200. exists (Demo.bytes "hello"). vm_compute. reflexivity.
Defined.

Lemma writeFile_stores_witness :
  let w := Samples.emptyWorld 7 in
  let r := {| FileReservation.id := "0000-7";
              FileReservation.storedName := "0000-7~a b.txt";
              FileReservation.fullPath := "/tmp/files/0000-7~a b.txt" |} in
  let w' := snd (writeFile Demo.uuid "/home/app" (Demo.bytes "hello") "a b.txt"
                   Samples.storeConfig w) in
  writeFile Demo.uuid "/home/app" (Demo.bytes "hello") "a b.txt" Samples.storeConfig w
  = (Ok r, w')
  /\ Fs.readFileSync (fs w') "/tmp/files/0000-7~a b.txt" = Ok (Demo.bytes "hello").
Proof.
  intros w r w'.
  assert (H : writeFile Demo.uuid "/home/app" (Demo.bytes "hello") "a b.txt"
                Samples.storeConfig w = (Ok r, w')) by (vm_compute; reflexivity).
  split; [exact H|].
  destruct (writeFile_stores Demo.uuid "/home/app" _ _ _ _ _ _ H) as (_ & Hread & _).
  exact Hread.
Defined.

Lemma write_then_retrieve_witness :
  let w := Samples.emptyWorld 7 in
  let r := {| FileReservation.id := "0000-7";
              FileReservation.storedName := "0000-7~a b.txt";
              FileReservation.fullPath := "/tmp/files/0000-7~a b.txt" |} in
  let w' := snd (writeFile Demo.uuid "/home/app" (Demo.bytes "hello") "a b.txt"
                   Samples.storeConfig w) in
  let options := {| FileServingRouterOptions.contentType := inl "text/plain";
                    FileServingRouterOptions.contentDisposition := None |} in
  Path.isAbsolute "/home/app" = true
  /\ writeFile Demo.uuid "/home/app" (Demo.bytes "hello") "a b.txt" Samples.storeConfig w
     = (Ok r, w')
  /\ plain "0000-7~a b.txt" = true
  /\ ~ overlaps "0000-7" "~"
  /\ exists handler,
      createFileServingRouter "/home/app" Demo.mediaType Samples.storeConfig options
      = Ok handler
      /\ Response.status (handler (fs w') (PString "0000-7~a b.txt")) = 200
      /\ Response.body (handler (fs w') (PString "0000-7~a b.txt"))
         = Some (Buffer (Demo.bytes "hello"))
      /\ Response.headers (handler (fs w') (PString "0000-7~a b.txt"))
           !! "Content-Disposition"
         = Some ("attachment; filename=" +:+ JS.quote +:+ "a%20b.txt" +:+ JS.quote).
Proof.
  intros w r w' options.
  assert (H1 : Path.isAbsolute "/home/app" = true) by reflexivity.
  assert (H2 : writeFile Demo.uuid "/home/app" (Demo.bytes "hello") "a b.txt"
                 Samples.storeConfig w = (Ok r, w')) by (vm_compute; reflexivity).
  assert (H3 : plain (FileReservation.storedName r) = true) by reflexivity.
  assert (H4 : ~ overlaps "0000-7" "~") by now apply overlapsb_false.
  split_and!; try assumption.
  destruct (write_then_retrieve Demo.uuid "/home/app" Demo.mediaType _ _ _ options
              _ _ _ H1 H2 H3) as (handler & Hh & Hs & Hb & Hd).
  exists handler. split_and!; try assumption. exact (Hd H4).
Defined.

Lemma format_parse_inverse_witness :
  occurs "-" "abc-def-ghi.pdf"
  /\ parseStoredName "abc-def-ghi.pdf" "-"
     = {| ParsedName.id := "abc"; ParsedName.filename := "def-ghi.pdf" |}
  /\ formatStoredName "abc" "def-ghi.pdf" "-" = "abc-def-ghi.pdf"
  /\ ~ occurs "-" "abc".
Proof.
  assert (H : occurs "-" "abc-def-ghi.pdf") by now apply includes_spec.
  destruct (format_parse_inverse "abc-def-ghi.pdf" "-" H) as [Hf Hn].
  split_and!; [exact H | reflexivity | exact Hf | apply Hn; discriminate].
Defined.

Lemma generation_first_accepted_witness :
  (2 < 100)%nat
  /\ (forall j, (j < 2)%nat -> occurs "~" (nthValue Samples.flaky 0%nat j))
  /\ ~ occurs "~" (nthValue Samples.flaky 0%nat 2)
  /\ exists w',
      generateValidatedId "~" Samples.flaky (Samples.emptyWorld 0) = (Ok "good2", w')
      /\ calls w' = 3%nat.
Proof.
  assert (H1 : (2 < 100)%nat) by lia.
  assert (H2 : forall j, (j < 2)%nat -> occurs "~" (nthValue Samples.flaky 0%nat j)).
  { intros j Hj. destruct j as [|[|j]]; [now apply includes_spec.. | lia]. }
  assert (H3 : ~ occurs "~" (nthValue Samples.flaky 0%nat 2))
    by now apply includes_false_iff.
  split_and!; try assumption.
  destruct (generation_first_accepted "~" Samples.flaky (Samples.emptyWorld 0) 2 H1 H2 H3)
    as (w' & Hrun & Hcalls & _).
  exists w'. split; [exact Hrun | exact Hcalls].
Defined.

Lemma resolved_store_is_fixed_witness :
  Path.isAbsolute "/home/app" = true
  /\ resolveResourceStorePath "/home/app" "file://./files/../store/" = Ok "/home/app/store"
  /\ resolveResourceStorePath "/home/app" "/home/app/store" = Ok "/home/app/store"
  /\ resolveResourceStorePath "/home/app" "file:///home/app/store" = Ok "/home/app/store".
Proof.
  assert (H1 : Path.isAbsolute "/home/app" = true) by reflexivity.
  assert (H2 : resolveResourceStorePath "/home/app" "file://./files/../store/"
               = Ok "/home/app/store") by reflexivity.
  destruct (resolved_store_is_fixed "/home/app" _ _ H1 H2) as [Ha Hb].
  split_and!; assumption.
Defined.

Lemma stdio_uri_is_reserved_path_witness :
  let w := Samples.emptyWorld 7 in
  let r := {| FileReservation.id := "0000-7";
              FileReservation.storedName := "0000-7~export.csv";
              FileReservation.fullPath := "/tmp/files/0000-7~export.csv" |} in
  let w' := snd (reserveFile Demo.uuid "/home/app" "export.csv" Samples.storeConfig w) in
  let uriConfig := {| FileUriConfig.resourceStoreUri := "file:///tmp/files";
                      FileUriConfig.baseUrl := None; FileUriConfig.endpoint := None |} in
  Path.isAbsolute "/home/app" = true
  /\ reserveFile Demo.uuid "/home/app" "export.csv" Samples.storeConfig w = (Ok r, w')
  /\ plain "0000-7~export.csv" = true
  /\ getFileUri "/home/app" Demo.numberText "0000-7~export.csv" None uriConfig
     = Ok "file:///tmp/files/0000-7~export.csv".
Proof.
  intros w r w' uriConfig.
  assert (H1 : Path.isAbsolute "/home/app" = true) by reflexivity.
  assert (H2 : reserveFile Demo.uuid "/home/app" "export.csv" Samples.storeConfig w
               = (Ok r, w')) by (vm_compute; reflexivity).
  assert (H3 : plain (FileReservation.storedName r) = true) by reflexivity.
  split_and!; try assumption.
  exact (stdio_uri_is_reserved_path Demo.uuid "/home/app" Demo.numberText "export.csv"
           Samples.storeConfig w r w' None uriConfig H1 H2 H3 eq_refl (or_introl eq_refl)).
Defined.

Lemma composeMiddleware_pointwise_witness :
  let upper := {| Composer.withTool :=
                    Some (fun (t : string) (_ : nat) (_ : list string) => t +:+ "!");
                  Composer.withResource := @None (Composer.Wrapper string);
                  Composer.withPrompt := @None (Composer.Wrapper string) |} in
  let tag := {| Composer.withTool :=
                  Some (fun (t : string) (_ : nat) (_ : list string) => "<" +:+ t +:+ ">");
                Composer.withResource :=
                  Some (fun (r : string) (_ : nat) (_ : list string) => "r:" +:+ r);
                Composer.withPrompt := None |} in
  let modules := {| Composer.tools := ["a"; "b"]; Composer.resources := ["x"];
                    Composer.prompts := ["p"] |} in
  Forall positionBlindLayer [upper; tag]
  /\ Composer.composeMiddleware modules [upper; tag]
     = {| Composer.tools := ["<a!>"; "<b!>"]; Composer.resources := ["r:x"];
          Composer.prompts := ["p"] |}.
Proof.
  intros upper tag modules.
  assert (H : Forall positionBlindLayer [upper; tag]).
  { repeat constructor; cbn; intros; reflexivity. }
  split; [exact H|].
  destruct (composeMiddleware_pointwise modules [upper; tag]) as [_ Hp].
  exact (Hp H).
Defined.

Lemma registerResources_stops_at_missing_template_witness :
  let r1 := Samples.resource "alpha" (Some tt) in
  let r2 := Samples.resource "beta" None in
  let r3 := Samples.resource "gamma" (Some tt) in
  Register.registerResources Samples.registerResource tt [] [r1] = (Ok tt, ["alpha"])
  /\ Register.template r2 = None
  /\ Register.registerResources Samples.registerResource tt [] [r1; r2; r3]
     = (Throw (Error ("Resource " +:+ JS.quote +:+ "beta" +:+ JS.quote
                      +:+ " must have a template")), ["alpha"]).
Proof.
  intros r1 r2 r3.
  assert (H1 : Register.registerResources Samples.registerResource tt [] [r1]
               = (Ok tt, ["alpha"])) by reflexivity.
  assert (H2 : Register.template r2 = None) by reflexivity.
  split; [exact H1|]. split; [exact H2|].
  exact (registerResources_stops_at_missing_template Samples.registerResource tt
           [] ["alpha"] [r1] [r3] r2 H1 H2).
Defined.

Lemma registerTools_stops_at_refusal_witness :
  let a := Samples.tool "echo" in
  let b := Samples.tool "sum" in
  Register.registerTools Samples.registerTool [] [a] = (Ok tt, ["echo"])
  /\ Samples.registerTool "echo" tt tt ["echo"]
     = (Throw (Error "Tool echo is already registered"), ["echo"])
  /\ Register.registerTools Samples.registerTool [] [a; a; b]
     = (Throw (Error "Tool echo is already registered"), ["echo"]).
Proof.
  intros a b.
  assert (H1 : Register.registerTools Samples.registerTool [] [a] = (Ok tt, ["echo"]))
    by reflexivity.
  assert (H2 : Samples.registerTool (Register.toolName a) (Register.toolConfig a)
                 (Register.toolHandler a) ["echo"]
               = (Throw (Error "Tool echo is already registered"), ["echo"]))
    by reflexivity.
  split; [exact H1|]. split; [exact H2|].
  exact (registerTools_stops_at_refusal Samples.registerTool [] ["echo"] ["echo"]
           [a] [b] a _ H1 H2).
Defined.

Lemma parseFields_set_witness :
  let available := ["id"; "name"; "email"; "age"] in
  Schemas.parseFields (Some " name , bogus,email") available
  = Schemas.Only ["name"; "email"; "id"]
  /\ NoDup ["name"; "email"; "id"]
  /\ ("bogus" ∉ ["name"; "email"; "id"]).
Proof.
  intros available.
  assert (H : Schemas.parseFields (Some " name , bogus,email") available
              = Schemas.Only ["name"; "email"; "id"]) by reflexivity.
  destruct (parseFields_set _ _ _ H) as (s & Hs & _ & _ & Hn & He).
  split_and!; [exact H | exact Hn |].
  intros Hb. apply He in Hb as [Ha _].
  apply list_elem_of_In in Ha. simpl in Ha.
  repeat (destruct Ha as [Ha|Ha]; [discriminate|]). exact Ha.
Defined.

Lemma reserveFile_keeps_files_witness :
  let config := {| FileServingConfig.resourceStoreUri := "file:///tmp/files-secret/x";
                   FileServingConfig.delimiter := None;
                   FileServingConfig.generateId := None |} in
  let w := {| fs := Demo.disk; gen := 7%nat; calls := 0 |} in
  reserveFile Demo.uuid "/home/app" "export.csv" config w
  = (Throw (SystemError "EEXIST"), w)
  /\ fs w !! "/tmp/files-secret/x" = Some (Fs.File (Demo.bytes "top secret")).
Proof.
  intros config w.
  assert (H : reserveFile Demo.uuid "/home/app" "export.csv" config w
              = (Throw (SystemError "EEXIST"), w)) by (vm_compute; reflexivity).
  split; [exact H|].
  destruct (reserveFile_keeps_files Demo.uuid "/home/app" _ _ _ _ _ H) as (Hfiles & _).
  apply Hfiles. vm_compute. reflexivity.
Defined.

Lemma reservation_lands_in_store_witness :
  let w := Samples.emptyWorld 7 in
  let r := {| FileReservation.id := "0000-7";
              FileReservation.storedName := "0000-7~export.csv";
              FileReservation.fullPath := "/tmp/files/0000-7~export.csv" |} in
  let w' := snd (reserveFile Demo.uuid "/home/app" "export.csv" Samples.storeConfig w) in
  Path.isAbsolute "/home/app" = true
  /\ reserveFile Demo.uuid "/home/app" "export.csv" Samples.storeConfig w = (Ok r, w')
  /\ plain "0000-7~export.csv" = true
  /\ Path.within "/tmp/files" "/tmp/files/0000-7~export.csv".
Proof.
  intros w r w'.
  assert (H1 : Path.isAbsolute "/home/app" = true) by reflexivity.
  assert (H2 : reserveFile Demo.uuid "/home/app" "export.csv" Samples.storeConfig w
               = (Ok r, w')) by (vm_compute; reflexivity).
  assert (H3 : plain (FileReservation.storedName r) = true) by reflexivity.
  split_and!; try assumption.
  destruct (reservation_lands_in_store Demo.uuid "/home/app" _ _ _ _ _ H1 H2 H3)
    as (dir & Hres & _ & _ & Hw).
  assert (dir = "/tmp/files") as -> by (vm_compute in Hres; congruence).
  exact Hw.
Defined.

(** * Further worked examples, after the repository's unit tests *)

Example parseFields_ex :
  let available := ["id"; "name"; "email"; "age"] in
  Schemas.parseFields None available = Schemas.All
  /\ Schemas.parseFields (Some EmptyString) available = Schemas.All
  /\ Schemas.parseFields (Some "name,email") available = Schemas.Only ["name"; "email"; "id"]
  /\ Schemas.parseFields (Some " name , email ") available
     = Schemas.Only ["name"; "email"; "id"]
  /\ Schemas.parseFields (Some "invalid1,invalid2") available = Schemas.Only ["id"]
  /\ Schemas.parseFields (Some "name") ["name"; "email"] = Schemas.Only ["name"]
  /\ Schemas.parseFields (Some "invalid") ["name"; "email"] = Schemas.All.
Proof. repeat split; reflexivity. Qed.

Example toColumnarFormat_ex :
  let available := ["id"; "name"; "email"] in
  Schemas.toColumnarFormat [Samples.alice] (Schemas.Only ["email"; "id"]) available
  = {| Schemas.columns := ["id"; "email"];
       Schemas.rows := [[Schemas.Data "1"; Schemas.Null]] |}
  /\ Schemas.toColumnarFormat [Samples.alice] Schemas.All available
     = {| Schemas.columns := available;
          Schemas.rows := [[Schemas.Data "1"; Schemas.Data "Alice"; Schemas.Null]] |}
  /\ Schemas.toColumnarFormat [Samples.alice] (Schemas.Only []) available
     = {| Schemas.columns := []; Schemas.rows := [[]] |}.
Proof. repeat split; reflexivity. Qed.

Example parseConfig_ex :
  let values s p := {| ParseConfig.stdioValue := s; ParseConfig.portValue := p |} in
  let onPort := {| TransportConfig.type := http;
                   TransportConfig.port := Some (JS.integer 3000) |} in
  let unbounded := {| TransportConfig.type := http;
                      TransportConfig.port := Some (JS.Infinity false) |} in
  let local := {| TransportConfig.type := stdio; TransportConfig.port := None |} in
  ParseConfig.transport (ParseConfig.parseConfig Samples.number (values None None) None)
  = local
  /\ ParseConfig.transport
       (ParseConfig.parseConfig Samples.number
          (values None (Some (ParseConfig.AString "3000"))) None) = onPort
  /\ ParseConfig.transport
       (ParseConfig.parseConfig Samples.number (values None None) (Some "3000")) = onPort
  /\ ParseConfig.transport
       (ParseConfig.parseConfig Samples.number
          (values (Some (ParseConfig.ABool true)) (Some (ParseConfig.AString "3000")))
          None) = local
  /\ ParseConfig.transport
       (ParseConfig.parseConfig Samples.number
          (values None (Some (ParseConfig.AString "abc"))) (Some "3000")) = local
  /\ ParseConfig.transport
       (ParseConfig.parseConfig Samples.number
          (values None (Some (ParseConfig.AString "0"))) (Some "3000")) = local
  /\ ParseConfig.transport
       (ParseConfig.parseConfig Samples.number
          (values None (Some (ParseConfig.AString "Infinity"))) None) = unbounded.
Proof. repeat split; reflexivity. Qed.

Example composeMiddleware_ex :
  let upper := {| Composer.withTool := Some (fun (t : string) (_ : nat) (_ : list string) => t +:+ "!");
                  Composer.withResource := @None (Composer.Wrapper string);
                  Composer.withPrompt := @None (Composer.Wrapper string) |} in
  let tag := {| Composer.withTool := Some (fun (t : string) (_ : nat) (_ : list string) => "<" +:+ t +:+ ">");
                Composer.withResource := Some (fun (r : string) (_ : nat) (_ : list string) => "r:" +:+ r);
                Composer.withPrompt := None |} in
  Composer.composeMiddleware
    {| Composer.tools := ["a"; "b"]; Composer.resources := ["x"];
       Composer.prompts := ["p"] |} [upper; tag]
  = {| Composer.tools := ["<a!>"; "<b!>"]; Composer.resources := ["r:x"];
       Composer.prompts := ["p"] |}.
Proof. reflexivity. Qed.

(** A wrapper that uses the index [map] passes along does not treat the
    modules alike. *)
Example composeMiddleware_index_ex :
  let numbered := {| Composer.withTool :=
                       Some (fun (t : string) (index : nat) (_ : list string) =>
                               t +:+ JS.numberToString (Z.of_nat index));
                     Composer.withResource := @None (Composer.Wrapper string);
                     Composer.withPrompt := @None (Composer.Wrapper string) |} in
  Composer.tools
    (Composer.composeMiddleware
       {| Composer.tools := ["a"; "a"]; Composer.resources := [];
          Composer.prompts := [] |} [numbered])
  = ["a0"; "a1"].
Proof. reflexivity. Qed.

(** An original filename with enough [..] segments takes the reserved
    path out of the store: the full path is computed by [path.join] and is
    not checked. *)
Example reserve_outside_ex :
  fst (reserveFile Demo.uuid "/home/app" "x/../../../etc/passwd" Samples.storeConfig
         (Samples.emptyWorld 7))
  = Ok {| FileReservation.id := "0000-7";
          FileReservation.storedName := "0000-7~x/../../../etc/passwd";
          FileReservation.fullPath := "/etc/passwd" |}.
Proof. vm_compute. reflexivity. Qed.
